(** * cdl: the Magshimim lesson-directory navigator ([opt/cdl/cdl.py])

    A shallow embedding of [cdl.py] and of the Python built-ins it calls,
    followed by the properties of the latest-entry resolver, the directory
    materializer and the path-resolution pipeline.

    Conventions of the embedding.
    - A Python [str] is a [string]; each [ascii] stands for one code point
      below 256.  Names with other code points are outside the model.
    - A Python [int] is a [Z].
    - A raised exception is the [Err] case of [result]; code that touches the
      file system or standard output runs in the state-and-exception monad
      [M] over a [World], which also records the system calls made.
    - The file system is a tree of directories and regular files, without
      symbolic links, permissions or limits on the length of names.
    - The command line is taken as [argparse] splits it into positional
      arguments and option values. *)

From Stdlib Require Import String Ascii List ZArith Bool Lia.
Import ListNotations.
Local Open Scope string_scope.
Local Open Scope Z_scope.

(** ** Exceptions and results *)

Inductive exn : Type :=
| ValueError
| KeyError
| FileNotFoundError      (* OSError, errno ENOENT *)
| NotADirectoryError     (* OSError, errno ENOTDIR *)
| FileExistsError        (* OSError, errno EEXIST *)
| SystemExit (status : Z) (message : string).

Inductive result (A : Type) : Type :=
| OK (a : A)
| Err (e : exn).
Arguments OK {A} a.
Arguments Err {A} e.

Definition rbind {A B} (r : result A) (k : A -> result B) : result B :=
  match r with
  | OK a => k a
  | Err e => Err e
  end.

(** ** Python built-ins on strings and integers *)

Module Py.

(** [c in chars] for a one-character [c]. *)
Fixpoint char_in (c : ascii) (chars : string) : bool :=
  match chars with
  | EmptyString => false
  | String a rest => if Ascii.eqb c a then true else char_in c rest
  end.

(** [s.startswith(p)]. *)
Fixpoint startswith (s p : string) {struct p} : bool :=
  match p, s with
  | EmptyString, _ => true
  | String a p', String b s' => if Ascii.eqb a b then startswith s' p' else false
  | String _ _, EmptyString => false
  end.

(** [s.lstrip(chars)]: drops leading characters while they belong to the
    character set [chars]; [chars] is a set, not a prefix. *)
Fixpoint lstrip (s chars : string) : string :=
  match s with
  | EmptyString => EmptyString
  | String a s' => if char_in a chars then lstrip s' chars else s
  end.

(** White space skipped by [int()] around the digits: tab, line feed,
    vertical tab, form feed, carriage return, space, and the two white-space
    code points of the range 128..255 (NEL and no-break space). *)
Definition is_space (c : ascii) : bool :=
  let n := nat_of_ascii c in
  (Nat.leb 9 n && Nat.leb n 13) || Nat.eqb n 32 || Nat.eqb n 133 || Nat.eqb n 160.

Definition digit_value (c : ascii) : option Z :=
  let n := nat_of_ascii c in
  if Nat.leb 48 n && Nat.leb n 57 then Some (Z.of_nat (n - 48)) else None.

Fixpoint skip_spaces (s : string) : string :=
  match s with
  | EmptyString => EmptyString
  | String a s' => if is_space a then skip_spaces s' else s
  end.

(** The digit scanner of [int()]: decimal digits, with single underscores
    allowed between digits only.  [after_us] says that a digit must come
    next (at the start, or after an underscore).  Returns the value, the
    number of digits and the unread rest. *)
Fixpoint scan_digits (after_us : bool) (acc : Z) (count : nat) (s : string)
  : option (Z * nat * string) :=
  match s with
  | EmptyString => if after_us then None else Some (acc, count, EmptyString)
  | String a s' =>
      match digit_value a with
      | Some d => scan_digits false (10 * acc + d) (S count) s'
      | None =>
          if after_us then None
          else if Ascii.eqb a "_" then scan_digits true acc count s'
          else Some (acc, count, s)
      end
  end.

(** CPython's default limit on the number of digits [int()] converts. *)
Definition int_max_str_digits : nat := 4300.

(** [int(s)] for a [str] argument, base 10: optional white space, an
    optional sign, digits, optional white space; anything else raises
    [ValueError]. *)
Definition int (s : string) : result Z :=
  let s1 := skip_spaces s in
  let '(negative, s2) :=
    match s1 with
    | String a r =>
        if Ascii.eqb a "-" then (true, r)
        else if Ascii.eqb a "+" then (false, r)
        else (false, s1)
    | EmptyString => (false, s1)
    end in
  match scan_digits true 0 0 s2 with
  | Some (v, count, rest) =>
      match skip_spaces rest with
      | EmptyString =>
          if Nat.leb count int_max_str_digits
          then OK (if negative then - v else v)
          else Err ValueError
      | String _ _ => Err ValueError
      end
  | None => Err ValueError
  end.

(** The loop of [max(iterable, key=f)] after the first item: the key of each
    further item is computed in turn, and an item replaces the current
    maximum only when its key is strictly greater. *)
Fixpoint max_loop {A} (key : A -> result Z) (maxitem : A) (maxval : Z)
         (l : list A) : result A :=
  match l with
  | [] => OK maxitem
  | item :: l' =>
      rbind (key item) (fun val =>
        if val >? maxval then max_loop key item val l'
        else max_loop key maxitem maxval l')
  end.

(** [max(l, key=key)]; an empty argument raises [ValueError]. *)
Definition max {A} (l : list A) (key : A -> result Z) : result A :=
  match l with
  | [] => Err ValueError
  | item :: l' => rbind (key item) (fun val => max_loop key item val l')
  end.

End Py.


(** ** The file system and [os] *)

Module Fs.

Inductive Kind : Type := File | Dir.

(** A path is the list of its components, innermost first, so that the
    parent of a path is its tail and the root directory is [[]].  A [Path]
    is lexical and may contain [".."]; a [Loc] is the location the kernel
    resolves it to and contains none. *)
Definition Path : Type := list string.
Definition Loc : Type := list string.

(** The file system: the kind of every entry below the root, listed in
    directory order.  The root itself always exists and is a directory.
    There are no symbolic links, permissions or name-length limits. *)
Definition FS : Type := list (Loc * Kind).

Definition loc_eqb (a b : Loc) : bool :=
  if list_eq_dec string_dec a b then true else false.

Fixpoint lookup (fs : FS) (l : Loc) : option Kind :=
  match fs with
  | [] => None
  | (q, k) :: fs' => if loc_eqb q l then Some k else lookup fs' l
  end.

(** Names of the entries of directory [d], in directory order. *)
Fixpoint children (fs : FS) (d : Loc) : list string :=
  match fs with
  | [] => []
  | (q, _) :: fs' =>
      match q with
      | name :: d' => if loc_eqb d' d then name :: children fs' d
                      else children fs' d
      | [] => children fs' d
      end
  end.

(** Path resolution: every component but the last must lead to a directory;
    a missing component gives ENOENT, a non-directory on the way ENOTDIR. *)
Fixpoint walk (fs : FS) (p : Path) : result (Loc * Kind) :=
  match p with
  | [] => OK ([], Dir)
  | name :: par =>
      match walk fs par with
      | Err e => Err e
      | OK (_, File) => Err NotADirectoryError
      | OK (d, Dir) =>
          if String.eqb name ".." then OK (tl d, Dir)
          else match lookup fs (name :: d) with
               | Some k => OK (name :: d, k)
               | None => Err FileNotFoundError
               end
      end
  end.

(** [mkdir(2)] on the file system.  The failures are those of the three
    errnos above; a real call can fail for other reasons as well (a name
    that is too long, missing permission), so nothing is concluded from the
    absence of a failure here. *)
Definition mkdir (fs : FS) (p : Path) : result FS :=
  match p with
  | [] => Err FileExistsError
  | name :: par =>
      match walk fs par with
      | Err e => Err e
      | OK (_, File) => Err NotADirectoryError
      | OK (d, Dir) =>
          if String.eqb name ".." then Err FileExistsError
          else match lookup fs (name :: d) with
               | Some _ => Err FileExistsError
               | None => OK (fs ++ [(name :: d, Dir)])%list
               end
      end
  end.

(** Reading a directory. *)
Definition listdir (fs : FS) (p : Path) : result (list string) :=
  match walk fs p with
  | Err e => Err e
  | OK (_, File) => Err NotADirectoryError
  | OK (d, Dir) => OK (children fs d)
  end.

(** System calls, as recorded in the trace of a run. *)
Inductive Syscall : Type :=
| SysMkdir (p : Path)
| SysStat (p : Path)
| SysListdir (p : Path).

Record World : Type := mkWorld {
  fs : FS;
  syscalls : list Syscall;     (* oldest first *)
  stdout : list string         (* printed lines, oldest first *)
}.

(** Computations that may raise, over a [World]; the world reached is kept
    when an exception is raised. *)
Definition M (A : Type) : Type := World -> result A * World.

Definition ret {A} (a : A) : M A := fun w => (OK a, w).

Definition raise {A} (e : exn) : M A := fun w => (Err e, w).

Definition bind {A B} (c : M A) (k : A -> M B) : M B :=
  fun w => match c w with
           | (OK a, w') => k a w'
           | (Err e, w') => (Err e, w')
           end.

(** [try: c] with the outcome handed to the [except] clauses. *)
Definition try {A} (c : M A) : M (result A) :=
  fun w => let (r, w') := c w in (OK r, w').

Definition lift {A} (r : result A) : M A := fun w => (r, w).

Definition syscall (s : Syscall) : M unit :=
  fun w => (OK tt, mkWorld (fs w) (syscalls w ++ [s]) (stdout w)).

End Fs.

Declare Scope monad_scope.
Delimit Scope monad_scope with monad.
Notation "x <- c ;; k" := (Fs.bind c (fun x => k))
  (at level 61, c at next level, right associativity) : monad_scope.
Notation "c ;; k" := (Fs.bind c (fun _ => k))
  (at level 61, right associativity) : monad_scope.
Local Open Scope monad_scope.

Module os.
Import Fs.

(** [os.mkdir(path)]. *)
Definition mkdir (p : Path) : M unit :=
  syscall (SysMkdir p) ;;
  fun w => match Fs.mkdir (fs w) p with
           | OK fs' => (OK tt, mkWorld fs' (syscalls w) (stdout w))
           | Err e => (Err e, w)
           end.

(** [os.listdir(path)]. *)
Definition listdir (p : Path) : M (list string) :=
  syscall (SysListdir p) ;;
  fun w => (Fs.listdir (fs w) p, w).

(** [os.stat(path)], returning the kind of the entry. *)
Definition stat (p : Path) : M Kind :=
  syscall (SysStat p) ;;
  fun w => (match walk (fs w) p with
            | OK (_, k) => OK k
            | Err e => Err e
            end, w).

End os.

(** [print(line)]. *)
Definition print (line : string) : Fs.M unit :=
  fun w => (OK tt, Fs.mkWorld (Fs.fs w) (Fs.syscalls w) (Fs.stdout w ++ [line])).

(** ** [pathlib] *)

Module pathlib.
Import Fs.

(** Splitting at every ["/"]. *)
Fixpoint split_slash (s : string) : list string :=
  match s with
  | EmptyString => [EmptyString]
  | String a s' =>
      if Ascii.eqb a "/" then EmptyString :: split_slash s'
      else match split_slash s' with
           | h :: t => String a h :: t
           | [] => [String a EmptyString]
           end
  end.

(** The components of a path string: empty components and ["."] are
    dropped. *)
Definition parse_parts (s : string) : list string :=
  filter (fun x => negb (String.eqb x "") && negb (String.eqb x "."))
         (split_slash s).

(** [path / s] for an absolute [path] and a string [s]: a string that starts
    with ["/"] replaces [path]. *)
Definition joinpath (path : Path) (s : string) : Path :=
  if Py.startswith s "/" then rev (parse_parts s)
  else (rev (parse_parts s) ++ path)%list.

Definition parent (path : Path) : Path := tl path.

(** [str(path)] for an absolute path. *)
Definition str (path : Path) : string :=
  match rev path with
  | [] => "/"
  | parts => String.concat "" (map (fun c => "/" ++ c) parts)
  end.

(** [Path.is_dir()]: [False] when the path does not exist or cannot be
    reached. *)
Definition is_dir (path : Path) : M bool :=
  r <- try (os.stat path) ;;
  match r with
  | OK Dir => ret true
  | OK File => ret false
  | Err _ => ret false
  end.

(** The [except OSError] clause of [Path.mkdir]: the error is swallowed only
    when [exist_ok] holds and the path is a directory. *)
Definition except_OSError (exist_ok : bool) (path : Path) (e : exn) : M unit :=
  if negb exist_ok then raise e
  else isd <- is_dir path ;;
       if negb isd then raise e else ret tt.

(** [path.mkdir(parents=False, exist_ok=exist_ok)]. *)
Definition mkdir_leaf (exist_ok : bool) (path : Path) : M unit :=
  r <- try (os.mkdir path) ;;
  match r with
  | OK _ => ret tt
  | Err FileNotFoundError => raise FileNotFoundError
  | Err e => except_OSError exist_ok path e
  end.

(** [path.mkdir(parents=True, exist_ok=exist_ok)]: when the parent is
    missing it is made first, with its own ancestors, and the path itself
    is then made without [parents].  The recursion limit of the interpreter
    is not part of the model. *)
Fixpoint mkdir_parents (exist_ok : bool) (path : Path) : M unit :=
  r <- try (os.mkdir path) ;;
  match r with
  | OK _ => ret tt
  | Err FileNotFoundError =>
      match path with
      | [] => raise FileNotFoundError
      | _ :: par => mkdir_parents true par ;; mkdir_leaf exist_ok path
      end
  | Err e => except_OSError exist_ok path e
  end.

End pathlib.

(** ** [argparse], as far as [cdl.py] uses it *)

Module argparse.
Import Fs.

(** The command line as [argparse] splits it: the positional arguments in
    order, and the values given to [-c] and [-w] ([None] when the option is
    absent).  Requests for help ([-h]) are not part of the model. *)
Record CommandLine : Type := mkCommandLine {
  positionals : list string;
  opt_c : option string;
  opt_w : option string
}.

(** The parser built by [create_parser]: the choices of the two positional
    arguments and the default of the optional one. *)
Record ArgumentParser : Type := mkParser {
  directory_choices : list string;
  hw_choices : list string;
  hw_default : string
}.

Record Namespace : Type := mkNamespace {
  directory : string;
  hw : string;
  c : option string;
  w : option string
}.

(** [parser.error(message)]: prints the usage and the message on standard
    error and exits with status 2.  The messages [argparse] composes itself
    are abbreviated. *)
Definition error {A} (parser : ArgumentParser) (message : string) : M A :=
  raise (SystemExit 2 message).

Definition contains (choices : list string) (value : string) : bool :=
  existsb (String.eqb value) choices.

Definition check_value (parser : ArgumentParser) (argument : string)
           (choices : list string) (value : string) : M unit :=
  if contains choices value then ret tt
  else error parser ("argument " ++ argument ++ ": invalid choice: " ++ value).

(** [parser.parse_args()]: [directory] is required, [hw] is optional
    ([nargs="?"]); both are checked against their choices, in this order,
    before left-over arguments are rejected. *)
Definition parse_args (parser : ArgumentParser) (argv : CommandLine)
  : M Namespace :=
  match positionals argv with
  | [] => error parser "the following arguments are required: directory"
  | d :: rest =>
      check_value parser "directory" (directory_choices parser) d ;;
      match rest with
      | [] =>
          check_value parser "hw" (hw_choices parser) (hw_default parser) ;;
          ret (mkNamespace d (hw_default parser) (opt_c argv) (opt_w argv))
      | m :: extras =>
          check_value parser "hw" (hw_choices parser) m ;;
          match extras with
          | [] => ret (mkNamespace d m (opt_c argv) (opt_w argv))
          | _ :: _ => error parser "unrecognized arguments"
          end
      end
  end.

End argparse.

(** ** [cdl.py] *)

Module Cdl.
Import Fs pathlib argparse.

(** The process environment: the home directory [Path.home()], an absolute
    path. *)
Record Env : Type := mkEnv { home : Path }.

(** [dict[key]]. *)
Fixpoint getitem (d : list (string * string)) (key : string) : result string :=
  match d with
  | [] => Err KeyError
  | (k, v) :: d' => if String.eqb k key then OK v else getitem d' key
  end.

Definition mkdir_gracefully (path : Path) : M unit :=
  mkdir_parents true path.

Module Config.

Definition MAGSHIMIM_DIR_PATH (env : Env) : Path :=
  joinpath (home env) "Magshimim".

Definition COURSES : list (string * string) :=
  [("p", "programming_cpp"); ("a", "assembly")].

Definition IS_WEEK_DIR (s : string) : bool := Py.startswith s "week".

Definition IS_COURSE_DIR (s : string) : bool := Py.startswith s "course".

Definition GET_LATEST_WEEK (weeks : list string) : result string :=
  Py.max weeks (fun w => Py.int (Py.lstrip w "week")).

Definition GET_LATEST_COURSE (courses : list string) : result string :=
  Py.max courses (fun c => Py.int (Py.lstrip c "course")).

Definition COURSE_IDENTIFICATION_TO_DIR (course_id : string) : string :=
  "course" ++ course_id.

Definition WEEK_IDENTIFICATION_TO_DIR (week_id : string) : string :=
  "week" ++ week_id.

Definition create_week_dir (week_path : Path) : M unit :=
  let path := week_path in
  mkdir_gracefully (joinpath path "classwork") ;;
  mkdir_gracefully (joinpath (joinpath path "homework") "src") ;;
  mkdir_gracefully (joinpath (joinpath path "homework") "answ").

End Config.

(** The part of [get_latest_course] that follows [os.listdir]: the filter,
    and the choice among the names kept. *)
Definition latest_course_of (names : list string) : result (option string) :=
  let courses := filter Config.IS_COURSE_DIR names in
  match courses with
  | [] => OK None
  | _ :: _ => rbind (Config.GET_LATEST_COURSE courses) (fun x => OK (Some x))
  end.

Definition get_latest_course (dir : Path) : M (option string) :=
  names <- os.listdir dir ;;
  lift (latest_course_of names).

Definition latest_week_of (names : list string) : result (option string) :=
  let weeks := filter Config.IS_WEEK_DIR names in
  match weeks with
  | [] => OK None
  | _ :: _ => rbind (Config.GET_LATEST_WEEK weeks) (fun x => OK (Some x))
  end.

Definition get_latest_week (dir : Path) : M (option string) :=
  names <- os.listdir dir ;;
  lift (latest_week_of names).

Definition create_parser : ArgumentParser :=
  mkParser (map fst Config.COURSES) ["c"; "h"] "h".

Definition get_course (path : Path) (args : Namespace) : M (option string) :=
  match c args with
  | None => get_latest_course path
  | Some course_id =>
      let course := Config.COURSE_IDENTIFICATION_TO_DIR course_id in
      mkdir_gracefully (joinpath path course) ;;
      ret (Some course)
  end.

Definition get_week (course_path : Path) (args : Namespace) : M (option string) :=
  match w args with
  | None => get_latest_week course_path
  | Some week_id =>
      let week := Config.WEEK_IDENTIFICATION_TO_DIR week_id in
      Config.create_week_dir (joinpath course_path week) ;;
      ret (Some week)
  end.

Definition main (env : Env) (argv : CommandLine) : M unit :=
  let parser := create_parser in
  args <- parse_args parser argv ;;
  selected_dirname <- lift (getitem Config.COURSES (directory args)) ;;
  let base_path := joinpath (Config.MAGSHIMIM_DIR_PATH env) selected_dirname in
  mkdir_gracefully base_path ;;
  course <- get_course base_path args ;;
  course <- match course with
            | None => error parser "no course dir to use. Please specify with -c flag"
            | Some course => ret course
            end ;;
  let course_path := joinpath base_path course in
  week <- get_week course_path args ;;
  week <- match week with
          | None => error parser "no week dir to use. Please specify with -w flag"
          | Some week => ret week
          end ;;
  let week_path := joinpath course_path week in
  if String.eqb (hw args) "c" then
    print (str (joinpath week_path "classwork"))
  else if String.eqb (hw args) "h" then
    print (str (joinpath (joinpath week_path "homework") "answ"))
  else
    print (str week_path).

End Cdl.

Import Fs pathlib argparse Cdl.

(** ** The two instances of the latest-entry resolver *)

Inductive Level : Type := Course | Week.

Definition prefix_of (lvl : Level) : string :=
  match lvl with Course => "course" | Week => "week" end.

(** The resolver of a level, on the names of a directory listing. *)
Definition latest_of (lvl : Level) : list string -> result (option string) :=
  match lvl with Course => latest_course_of | Week => latest_week_of end.

(** The key by which [GET_LATEST_COURSE] and [GET_LATEST_WEEK] compare. *)
Definition key_of (lvl : Level) (name : string) : result Z :=
  Py.int (Py.lstrip name (prefix_of lvl)).

(** Follows the spec's words ("strip the prefix and parse the remainder"):
    what is left of [name] after its first [length prefix] characters. *)
Definition spec_remainder (prefix name : string) : string :=
  substring (String.length prefix) (String.length name - String.length prefix) name.

(** Follows the spec's words: the [find_latest] of the specification, which
    filters by prefix, answers [None] on an empty filtered list, and
    otherwise takes the maximum by the integer after the prefix, failing
    when one of them is not an integer. *)
Definition spec_find_latest (prefix : string) (names : list string)
  : result (option string) :=
  match filter (fun n => Py.startswith n prefix) names with
  | [] => OK None
  | kept =>
      rbind (Py.max kept (fun n => Py.int (spec_remainder prefix n)))
            (fun x => OK (Some x))
  end.

(** White space, sign or digit: the characters a string accepted by
    [int()] can start with. *)
Definition int_head (a : ascii) : bool :=
  Py.is_space a || Ascii.eqb a "-" || Ascii.eqb a "+" ||
  match Py.digit_value a with Some _ => true | None => false end.

(** ** Observations on file systems *)

(** [path] leads to a directory. *)
Definition isdir (fs : FS) (path : Path) : bool :=
  match walk fs path with
  | OK (_, Dir) => true
  | _ => false
  end.

(** [fs'] is [fs] followed by new entries, all of them directories: nothing
    that was there is removed, changed or reordered. *)
Definition grows (fs fs' : FS) : Prop :=
  exists added, fs' = (fs ++ added)%list /\ Forall (fun e => snd e = Dir) added.


(** The world after one more system call that left the file system as it
    was, and after one more printed line. *)
Definition logged (w : World) (s : Syscall) : World :=
  mkWorld (fs w) (syscalls w ++ [s])%list (stdout w).

Definition printed (w : World) (line : string) : World :=
  mkWorld (fs w) (syscalls w) (stdout w ++ [line])%list.

(** The messages of the two [parser.error] calls of [main]. *)
Definition no_course_message : string :=
  "no course dir to use. Please specify with -c flag".

Definition no_week_message : string :=
  "no week dir to use. Please specify with -w flag".

(** The first positional argument is not an alias of [COURSES]; the second
    one is present and is not a leaf mode. *)
Definition invalid_alias (argv : CommandLine) : Prop :=
  match positionals argv with
  | d :: _ => ~ In d (map fst Config.COURSES)
  | [] => False
  end.

Definition invalid_mode (argv : CommandLine) : Prop :=
  match positionals argv with
  | _ :: m :: _ => ~ In m ["c"; "h"]
  | _ => False
  end.

(** The system calls that read a directory. *)
Definition is_listdir (s : Syscall) : bool :=
  match s with
  | SysListdir _ => true
  | _ => false
  end.

(** From [w] to [w'] system calls were made, none of which read a
    directory. *)
Definition no_listing (w w' : World) : Prop :=
  exists calls, syscalls w' = (syscalls w ++ calls)%list /\
                Forall (fun s => is_listdir s = false) calls.

(** ** Sample runs *)

Module Sample.

Definition env : Env := mkEnv ["user"; "home"].

(** Only the root directory exists. *)
Definition empty : World := mkWorld [] [] [].

Definition magshimim : Loc := ["Magshimim"; "user"; "home"].

(** [assembly] holds [course3], which holds [week1] and [week7]. *)
Definition lessons : World :=
  mkWorld [ (["home"], Dir); (["user"; "home"], Dir); (magshimim, Dir);
            ("assembly" :: magshimim, Dir);
            ("course3" :: "assembly" :: magshimim, Dir);
            ("week1" :: "course3" :: "assembly" :: magshimim, Dir);
            ("week7" :: "course3" :: "assembly" :: magshimim, Dir) ]
          [] [].

(** The category directory [assembly] exists and is empty. *)
Definition no_course : World :=
  mkWorld [ (["home"], Dir); (["user"; "home"], Dir); (magshimim, Dir);
            ("assembly" :: magshimim, Dir) ]
          [] [].

(** The home directory exists; [Magshimim] does not. *)
Definition fresh_home : World :=
  mkWorld [ (["home"], Dir); (["user"; "home"], Dir) ] [] [].

(** The category directory [assembly] holds a regular file [course9]. *)
Definition file_as_course : World :=
  mkWorld [ (["home"], Dir); (["user"; "home"], Dir); (magshimim, Dir);
            ("assembly" :: magshimim, Dir);
            ("course3" :: "assembly" :: magshimim, Dir);
            ("course9" :: "assembly" :: magshimim, File) ]
          [] [].

(** A directory [a] that holds a file. *)
Definition with_file : World :=
  mkWorld [ (["a"], Dir); (["todo.txt"; "a"], File) ] [] [].

End Sample.

(** * Properties *)

Local Open Scope list_scope.

(** ** The latest-entry resolver *)

Section MaxByKey.

Context {A : Type}.
Variable key : A -> result Z.

(** The running maximum survives a tail whose keys do not exceed it. *)
Lemma max_loop_absorb (l : list A) (maxitem : A) (maxval : Z) :
  (forall m, In m l -> exists j, key m = OK j /\ j <= maxval) ->
  Py.max_loop key maxitem maxval l = OK maxitem.
Proof.
  induction l as [|x l IH]; intros Hle; simpl; [reflexivity|].
  destruct (Hle x (or_introl eq_refl)) as (j & Hj & Hjle).
  rewrite Hj; simpl.
  destruct (Z.gtb_spec j maxval); [lia|].
  apply IH. intros m Hm. apply Hle. now right.
Qed.

(** Items with smaller keys in front of [best] do not keep it from taking
    over the running maximum. *)
Lemma max_loop_reach (before after : list A) (best : A) (k : Z) :
  key best = OK k ->
  forall (maxitem : A) (maxval : Z),
  maxval < k ->
  (forall m, In m before -> exists j, key m = OK j /\ j < k) ->
  Py.max_loop key maxitem maxval (before ++ best :: after)
  = Py.max_loop key best k after.
Proof.
  intros Hbest.
  induction before as [|x before IH]; intros maxitem maxval Hlt Hlow; simpl.
  - rewrite Hbest; simpl.
    destruct (Z.gtb_spec k maxval); [reflexivity | lia].
  - destruct (Hlow x (or_introl eq_refl)) as (j & Hj & Hjlt).
    rewrite Hj; simpl.
    destruct (j >? maxval); apply IH; auto; intros m Hm; apply Hlow; now right.
Qed.

(** [max] returns the first item whose key is maximal. *)
Lemma max_first_maximal (before after : list A) (best : A) (k : Z) :
  key best = OK k ->
  (forall m, In m before -> exists j, key m = OK j /\ j < k) ->
  (forall m, In m after -> exists j, key m = OK j /\ j <= k) ->
  Py.max (before ++ best :: after) key = OK best.
Proof.
  intros Hbest Hlow Hhigh.
  destruct before as [|x before]; simpl.
  - rewrite Hbest; simpl. now apply max_loop_absorb.
  - destruct (Hlow x (or_introl eq_refl)) as (j & Hj & Hjlt).
    rewrite Hj; simpl.
    rewrite (max_loop_reach before after best k Hbest); auto.
    + now apply max_loop_absorb.
    + intros m Hm. apply Hlow. now right.
Qed.

(** When every key can be computed, the loop ends on an item whose key
    bounds the initial maximum and every key of the list. *)
Lemma max_loop_bounds (l : list A) :
  (forall x, In x l -> exists z, key x = OK z) ->
  forall (maxitem : A) (maxval : Z),
  key maxitem = OK maxval ->
  exists b vb,
    Py.max_loop key maxitem maxval l = OK b /\ key b = OK vb /\
    (b = maxitem \/ In b l) /\ maxval <= vb /\
    (forall x z, In x l -> key x = OK z -> z <= vb).
Proof.
  induction l as [|x l IH]; intros Hall maxitem maxval Hm; simpl.
  - exists maxitem, maxval.
    split; [reflexivity|]. split; [assumption|]. split; [now left|].
    split; [lia|]. intros ? ? [].
  - destruct (Hall x (or_introl eq_refl)) as (zx & Hzx).
    rewrite Hzx; simpl.
    assert (Hall' : forall y, In y l -> exists z, key y = OK z)
      by (intros y Hy; apply Hall; now right).
    destruct (Z.gtb_spec zx maxval) as [Hcmp|Hcmp].
    + destruct (IH Hall' x zx Hzx) as (b & vb & Hr & Hkb & Hin & Hge & Hub).
      exists b, vb.
      split; [assumption|]. split; [assumption|]. split; [|split; [lia|]].
      * destruct Hin; [right; left; congruence | right; now right].
      * intros y z [->|Hy] Hz; [|eauto].
        assert (z = zx) by congruence. lia.
    + destruct (IH Hall' maxitem maxval Hm) as (b & vb & Hr & Hkb & Hin & Hge & Hub).
      exists b, vb.
      split; [assumption|]. split; [assumption|]. split; [|split; [lia|]].
      * destruct Hin; [now left | right; now right].
      * intros y z [->|Hy] Hz; [|eauto].
        assert (z = zx) by congruence. lia.
Qed.

Lemma max_bounds (l : list A) :
  l <> [] ->
  (forall x, In x l -> exists z, key x = OK z) ->
  exists b vb,
    Py.max l key = OK b /\ key b = OK vb /\ In b l /\
    (forall x z, In x l -> key x = OK z -> z <= vb).
Proof.
  destruct l as [|x l]; [congruence|]. intros _ Hall; simpl.
  destruct (Hall x (or_introl eq_refl)) as (zx & Hzx). rewrite Hzx; simpl.
  destruct (max_loop_bounds l (fun y Hy => Hall y (or_intror Hy)) x zx Hzx)
    as (b & vb & Hr & Hkb & Hin & Hge & Hub).
  exists b, vb.
  split; [assumption|]. split; [assumption|]. split.
  - destruct Hin; [left; congruence | now right].
  - intros y z [->|Hy] Hz; [|eauto].
    assert (z = zx) by congruence. lia.
Qed.

End MaxByKey.

Section Strings.

Lemma startswith_append (p s : string) : Py.startswith (p ++ s)%string p = true.
Proof.
  induction p as [|a p IH]; simpl; [reflexivity|].
  now rewrite Ascii.eqb_refl.
Qed.

(** A string that [int()] accepts starts with white space, a sign or a
    digit. *)
Lemma int_OK_head (s : string) (z : Z) :
  Py.int s = OK z ->
  exists a s', s = String a s' /\ int_head a = true.
Proof.
  destruct s as [|a s']; [discriminate|].
  intros H. exists a, s'. split; [reflexivity|].
  unfold int_head.
  destruct (Py.is_space a) eqn:Hsp; [reflexivity|].
  destruct (Ascii.eqb a "-") eqn:Hm; [reflexivity|].
  destruct (Ascii.eqb a "+") eqn:Hp; [reflexivity|].
  unfold Py.int in H. simpl in H. rewrite Hsp, Hm, Hp in H. simpl in H.
  destruct (Py.digit_value a); [reflexivity | discriminate].
Qed.

(** [lstrip] leaves such a string alone when the character set holds no
    white space, sign or digit. *)
Lemma lstrip_int (chars s : string) (z : Z) :
  (forall a, Py.char_in a chars = true -> int_head a = false) ->
  Py.int s = OK z ->
  Py.lstrip s chars = s.
Proof.
  intros Hchars H.
  destruct (int_OK_head s z H) as (a & s' & -> & Ha); simpl.
  destruct (Py.char_in a chars) eqn:Hin; [|reflexivity].
  rewrite (Hchars a Hin) in Ha. discriminate.
Qed.

Lemma course_chars (a : ascii) :
  Py.char_in a "course" = true -> int_head a = false.
Proof.
  simpl.
  repeat match goal with
         | |- context [Ascii.eqb a ?b] =>
             destruct (Ascii.eqb_spec a b) as [->|_]; [reflexivity|]
         end.
  discriminate.
Qed.

Lemma week_chars (a : ascii) :
  Py.char_in a "week" = true -> int_head a = false.
Proof.
  simpl.
  repeat match goal with
         | |- context [Ascii.eqb a ?b] =>
             destruct (Ascii.eqb_spec a b) as [->|_]; [reflexivity|]
         end.
  discriminate.
Qed.

Lemma filter_all {X} (f : X -> bool) (l : list X) :
  (forall x, In x l -> f x = true) -> filter f l = l.
Proof.
  induction l as [|x l IH]; intros H; simpl; [reflexivity|].
  rewrite (H x (or_introl eq_refl)). f_equal. apply IH.
  intros y Hy. apply H. now right.
Qed.

Lemma filter_none {X} (f : X -> bool) (l : list X) :
  (forall x, In x l -> f x = false) -> filter f l = [].
Proof.
  induction l as [|x l IH]; intros H; simpl; [reflexivity|].
  rewrite (H x (or_introl eq_refl)). apply IH.
  intros y Hy. apply H. now right.
Qed.

End Strings.

Section Resolver.

Lemma int_raises_ValueError (s : string) (e : exn) :
  Py.int s = Err e -> e = ValueError.
Proof.
  unfold Py.int.
  destruct (match Py.skip_spaces s with
            | String a r =>
                if Ascii.eqb a "-" then (true, r)
                else if Ascii.eqb a "+" then (false, r)
                else (false, Py.skip_spaces s)
            | EmptyString => (false, Py.skip_spaces s)
            end) as [negative s2].
  destruct (Py.scan_digits true 0 0 s2) as [[[v count] rest]|]; [|congruence].
  destruct (Py.skip_spaces rest); [|congruence].
  destruct (Nat.leb count Py.int_max_str_digits); congruence.
Qed.

Lemma substring_all (s : string) : substring 0 (String.length s) s = s.
Proof. induction s as [|a s IH]; simpl; [reflexivity | now rewrite IH]. Qed.

(** A name that starts with the prefix is the prefix followed by the
    remainder. *)
Lemma startswith_remainder (p n : string) :
  Py.startswith n p = true -> n = (p ++ spec_remainder p n)%string.
Proof.
  unfold spec_remainder. revert n.
  induction p as [|a p IH]; intros n H; simpl.
  - now rewrite Nat.sub_0_r, substring_all.
  - destruct n as [|b n]; simpl in H; [discriminate|].
    destruct (Ascii.eqb_spec a b) as [->|]; [|discriminate].
    simpl. f_equal. now apply IH.
Qed.

Lemma level_chars (lvl : Level) (a : ascii) :
  Py.char_in a (prefix_of lvl) = true -> int_head a = false.
Proof. destruct lvl; [apply course_chars | apply week_chars]. Qed.

Lemma lstrip_prefix (lvl : Level) (s : string) :
  Py.lstrip (prefix_of lvl ++ s)%string (prefix_of lvl) = Py.lstrip s (prefix_of lvl).
Proof. destruct lvl; reflexivity. Qed.

(** On a name made of the prefix and a numeric suffix the key is the
    number after the prefix. *)
Lemma key_numeric (lvl : Level) (s : string) (z : Z) :
  Py.int s = OK z -> key_of lvl (prefix_of lvl ++ s)%string = OK z.
Proof.
  intros H. unfold key_of. rewrite lstrip_prefix.
  now rewrite (lstrip_int _ s z (level_chars lvl) H).
Qed.

(** The resolvers, unfolded: filter, then [max] by [key_of]. *)
Lemma latest_of_eq (lvl : Level) (names : list string) :
  latest_of lvl names =
  match filter (fun n => Py.startswith n (prefix_of lvl)) names with
  | [] => OK None
  | x :: l => rbind (Py.max (x :: l) (key_of lvl)) (fun b => OK (Some b))
  end.
Proof.
  destruct lvl; unfold latest_of, latest_course_of, latest_week_of; cbv zeta.
  - change Config.IS_COURSE_DIR with (fun n => Py.startswith n (prefix_of Course)).
    destruct (filter _ names); reflexivity.
  - change Config.IS_WEEK_DIR with (fun n => Py.startswith n (prefix_of Week)).
    destruct (filter _ names); reflexivity.
Qed.

Lemma NoDup_map_eq {X Y} (f : X -> Y) (l : list X) (x y : X) :
  NoDup (map f l) -> In x l -> In y l -> f x = f y -> x = y.
Proof.
  induction l as [|a l IH]; simpl; intros Hnd Hx Hy Hf; [destruct Hx|].
  inversion Hnd as [|? ? Hnotin Hnd']; subst.
  destruct Hx as [->|Hx], Hy as [->|Hy]; auto.
  - exfalso. apply Hnotin. rewrite Hf. now apply in_map.
  - exfalso. apply Hnotin. rewrite <- Hf. now apply in_map.
Qed.

(** When [max] raises, it is the key of some item that raised. *)
Lemma max_raises {X} (key : X -> result Z) (l : list X) (e : exn) :
  l <> [] -> Py.max l key = Err e -> exists x, In x l /\ key x = Err e.
Proof.
  destruct l as [|x l]; [congruence|]. intros _. simpl.
  destruct (key x) as [zx|e0] eqn:Hx; simpl;
    [|intros [= ->]; exists x; split; [now left | assumption]].
  revert x zx Hx.
  induction l as [|y l IH]; intros x zx Hx; simpl; [discriminate|].
  destruct (key y) as [zy|e1] eqn:Hy; simpl.
  - destruct (zy >? zx); intros Hr.
    + destruct (IH y zy Hy Hr) as (b & [->|Hb] & Hkb).
      * congruence.
      * exists b. split; [right; now right | assumption].
    + destruct (IH x zx Hx Hr) as (b & [->|Hb] & Hkb).
      * congruence.
      * exists b. split; [right; now right | assumption].
  - intros [= ->]. exists y. split; [right; now left | assumption].
Qed.

(** The resolver raises only [ValueError], and only when some name with
    the prefix has a remainder that is not an integer. *)
Lemma latest_raises_only_on_malformed (lvl : Level) (names : list string) (e : exn) :
  latest_of lvl names = Err e ->
  e = ValueError /\
  exists n, In n names /\ Py.startswith n (prefix_of lvl) = true /\
            Py.int (spec_remainder (prefix_of lvl) n) = Err ValueError.
Proof.
  rewrite latest_of_eq.
  destruct (filter _ names) as [|x l] eqn:Hf; [discriminate|].
  destruct (Py.max (x :: l) (key_of lvl)) as [b|e0] eqn:Hmax; [discriminate|].
  intros [= ->].
  assert (Hne : x :: l <> []) by discriminate.
  destruct (max_raises _ _ _ Hne Hmax) as (n & Hn & Hkey).
  rewrite <- Hf in Hn. apply filter_In in Hn. destruct Hn as [Hn Hpre].
  pose proof (int_raises_ValueError _ _ Hkey) as ->.
  split; [reflexivity|]. exists n. split; [assumption|]. split; [assumption|].
  destruct (Py.int (spec_remainder (prefix_of lvl) n)) as [z|e1] eqn:Hint.
  - rewrite (startswith_remainder _ _ Hpre) in Hkey.
    rewrite (key_numeric lvl _ z Hint) in Hkey. discriminate.
  - now rewrite (int_raises_ValueError _ _ Hint).
Qed.

(** On names whose remainders after the prefix are all integers, the
    program's resolver is the specification's. *)
Lemma latest_refines_spec (lvl : Level) (names : list string) :
  (forall n, In n names -> Py.startswith n (prefix_of lvl) = true ->
             exists z, Py.int (spec_remainder (prefix_of lvl) n) = OK z) ->
  latest_of lvl names = spec_find_latest (prefix_of lvl) names.
Proof.
  intros Hnum. rewrite latest_of_eq. unfold spec_find_latest.
  assert (Hkeys : forall n, In n (filter (fun n => Py.startswith n (prefix_of lvl)) names) ->
                  key_of lvl n = Py.int (spec_remainder (prefix_of lvl) n)).
  { intros n Hn. apply filter_In in Hn. destruct Hn as [Hn Hpre].
    destruct (Hnum n Hn Hpre) as (z & Hz). rewrite Hz.
    rewrite (startswith_remainder _ _ Hpre) at 1. now apply key_numeric. }
  destruct (filter _ names) as [|x l]; [reflexivity|].
  f_equal. simpl.
  rewrite (Hkeys x (or_introl eq_refl)).
  destruct (Py.int (spec_remainder (prefix_of lvl) x)) as [zx|]; simpl; [|reflexivity].
  assert (Hl : forall n, In n l -> key_of lvl n = Py.int (spec_remainder (prefix_of lvl) n))
    by (intros n Hn; apply Hkeys; now right).
  clear Hkeys. revert x zx Hl.
  induction l as [|y l IH]; intros x zx Hl; simpl; [reflexivity|].
  rewrite (Hl y (or_introl eq_refl)).
  destruct (Py.int (spec_remainder (prefix_of lvl) y)) as [zy|]; simpl; [|reflexivity].
  destruct (zy >? zx); apply IH; intros n Hn; apply Hl; now right.
Qed.

(** No name with the prefix: the answer is [None]. *)
Lemma latest_of_none (lvl : Level) (names : list string) :
  (forall n, In n names -> Py.startswith n (prefix_of lvl) = false) ->
  latest_of lvl names = OK None.
Proof.
  intros Hnone. rewrite latest_of_eq. now rewrite filter_none.
Qed.

End Resolver.

(** ** The file system under [mkdir] *)

Section FileSystem.

Lemma grows_refl (fs : FS) : grows fs fs.
Proof. exists []. split; [now rewrite app_nil_r | constructor]. Qed.

Lemma grows_trans (a b c : FS) : grows a b -> grows b c -> grows a c.
Proof.
  intros (x & -> & Hx) (y & -> & Hy). exists (x ++ y)%list.
  split; [now rewrite app_assoc | now apply Forall_app].
Qed.

Lemma loc_eqb_eq (a b : Loc) : loc_eqb a b = true <-> a = b.
Proof. unfold loc_eqb. destruct (list_eq_dec string_dec a b); split; congruence. Qed.

Lemma lookup_app_Some (fs added : FS) (l : Loc) (k : Kind) :
  lookup fs l = Some k -> lookup (fs ++ added) l = Some k.
Proof.
  induction fs as [|[q kq] fs IH]; simpl; [discriminate|].
  destruct (loc_eqb q l); auto.
Qed.

Lemma lookup_app_None (fs added : FS) (l : Loc) :
  lookup fs l = None -> lookup (fs ++ added) l = lookup added l.
Proof.
  induction fs as [|[q kq] fs IH]; simpl; [reflexivity|].
  destruct (loc_eqb q l); [discriminate | auto].
Qed.

Lemma lookup_grows (fs fs' : FS) (l : Loc) (k : Kind) :
  grows fs fs' -> lookup fs l = Some k -> lookup fs' l = Some k.
Proof. intros (added & -> & _). apply lookup_app_Some. Qed.

(** What a path leads to does not change when the file system grows. *)
Lemma walk_grows (fs fs' : FS) (p : Path) (x : Loc * Kind) :
  grows fs fs' -> walk fs p = OK x -> walk fs' p = OK x.
Proof.
  intros Hg. revert x.
  induction p as [|name par IH]; intros x; simpl; [auto|].
  destruct (walk fs par) as [[d [|]]|e]; try discriminate.
  rewrite (IH _ eq_refl).
  destruct (String.eqb name ".."); [auto|].
  destruct (lookup fs (name :: d)) as [k|] eqn:Hl; [|discriminate].
  now rewrite (lookup_grows _ _ _ _ Hg Hl).
Qed.

Lemma isdir_grows (fs fs' : FS) (p : Path) :
  grows fs fs' -> isdir fs p = true -> isdir fs' p = true.
Proof.
  unfold isdir. intros Hg.
  destruct (walk fs p) as [[d [|]]|e] eqn:Hw; try discriminate.
  now rewrite (walk_grows _ _ _ _ Hg Hw).
Qed.



(** [mkdir(2)], when it succeeds, appends one directory entry, and the
    path then leads to a directory. *)
Lemma Fs_mkdir_OK (fs fs' : FS) (p : Path) :
  Fs.mkdir fs p = OK fs' -> grows fs fs' /\ isdir fs' p = true.
Proof.
  destruct p as [|name par]; simpl; [discriminate|].
  destruct (walk fs par) as [[d [|]]|e] eqn:Hw; try discriminate.
  destruct (String.eqb name "..") eqn:Hdd; [discriminate|].
  destruct (lookup fs (name :: d)) eqn:Hl; [discriminate|].
  intros [= <-].
  assert (Hg : grows fs (fs ++ [(name :: d, Dir)])).
  { eexists. split; [reflexivity|]. repeat constructor. }
  split; [assumption|].
  unfold isdir. simpl. rewrite (walk_grows _ _ _ _ Hg Hw), Hdd.
  rewrite lookup_app_None by assumption. simpl.
  now replace (loc_eqb (name :: d) (name :: d)) with true
    by (symmetry; now apply loc_eqb_eq).
Qed.

(** On an existing directory [mkdir(2)] fails with EEXIST. *)
Lemma Fs_mkdir_isdir (fs : FS) (p : Path) :
  isdir fs p = true -> Fs.mkdir fs p = Err FileExistsError.
Proof.
  unfold isdir. destruct p as [|name par]; simpl; [reflexivity|].
  destruct (walk fs par) as [[d [|]]|e]; try discriminate.
  destruct (String.eqb name ".."); [reflexivity|].
  destruct (lookup fs (name :: d)); [reflexivity | discriminate].
Qed.

End FileSystem.

(** ** Runs of the [pathlib] operations *)

Section Pathlib.

Lemma run_os_mkdir (p : Path) (w : World) :
  os.mkdir p w =
  match Fs.mkdir (fs w) p with
  | OK fs' => (OK tt, mkWorld fs' (syscalls w ++ [SysMkdir p]) (stdout w))
  | Err e => (Err e, logged w (SysMkdir p))
  end.
Proof.
  unfold os.mkdir, bind, syscall, logged; simpl.
  destruct (Fs.mkdir (fs w) p); reflexivity.
Qed.

Lemma run_is_dir (p : Path) (w : World) :
  is_dir p w = (OK (isdir (fs w) p), logged w (SysStat p)).
Proof.
  unfold is_dir, try, os.stat, bind, syscall, isdir, logged, ret; simpl.
  destruct (walk (fs w) p) as [[d [|]]|e]; reflexivity.
Qed.

Lemma run_except_OSError (exist_ok : bool) (p : Path) (e : exn) (w : World) :
  except_OSError exist_ok p e w =
  if exist_ok then
    if isdir (fs w) p then (OK tt, logged w (SysStat p))
    else (Err e, logged w (SysStat p))
  else (Err e, w).
Proof.
  unfold except_OSError. destruct exist_ok; simpl; [|reflexivity].
  unfold bind. rewrite run_is_dir.
  destruct (isdir (fs w) p); reflexivity.
Qed.

Lemma run_mkdir_leaf (exist_ok : bool) (p : Path) (w : World) :
  mkdir_leaf exist_ok p w =
  match Fs.mkdir (fs w) p with
  | OK fs' => (OK tt, mkWorld fs' (syscalls w ++ [SysMkdir p]) (stdout w))
  | Err FileNotFoundError => (Err FileNotFoundError, logged w (SysMkdir p))
  | Err e => except_OSError exist_ok p e (logged w (SysMkdir p))
  end.
Proof.
  unfold mkdir_leaf, bind, try. rewrite run_os_mkdir.
  destruct (Fs.mkdir (fs w) p) as [fs'|[]]; reflexivity.
Qed.

Lemma run_mkdir_parents (exist_ok : bool) (p : Path) (w : World) :
  mkdir_parents exist_ok p w =
  match Fs.mkdir (fs w) p with
  | OK fs' => (OK tt, mkWorld fs' (syscalls w ++ [SysMkdir p]) (stdout w))
  | Err FileNotFoundError =>
      match p with
      | [] => (Err FileNotFoundError, logged w (SysMkdir p))
      | _ :: par =>
          match mkdir_parents true par (logged w (SysMkdir p)) with
          | (OK _, w') => mkdir_leaf exist_ok p w'
          | (Err e, w') => (Err e, w')
          end
      end
  | Err e => except_OSError exist_ok p e (logged w (SysMkdir p))
  end.
Proof.
  destruct p as [|name par]; cbn [mkdir_parents]; unfold bind, try;
    rewrite run_os_mkdir.
  - reflexivity.
  - destruct (Fs.mkdir (fs w) (name :: par)) as [fs'|[]]; reflexivity.
Qed.

(** Whatever its outcome, [mkdir_leaf] prints nothing and only makes the
    file system grow; when it returns, the path is a directory. *)
Lemma mkdir_leaf_sound (exist_ok : bool) (p : Path) (w w' : World) (r : result unit) :
  mkdir_leaf exist_ok p w = (r, w') ->
  stdout w' = stdout w /\ grows (fs w) (fs w') /\
  (r = OK tt -> isdir (fs w') p = true).
Proof.
  rewrite run_mkdir_leaf.
  destruct (Fs.mkdir (fs w) p) as [fs'|e] eqn:Hmk.
  - intros [= <- <-]. apply Fs_mkdir_OK in Hmk. simpl. tauto.
  - assert (Hx : except_OSError exist_ok p e (logged w (SysMkdir p)) = (r, w') ->
                 stdout w' = stdout w /\ grows (fs w) (fs w') /\
                 (r = OK tt -> isdir (fs w') p = true)).
    { rewrite run_except_OSError. simpl.
      destruct exist_ok; [destruct (isdir (fs w) p) eqn:Hd|];
        intros [= <- <-]; simpl; repeat split;
        auto using grows_refl; discriminate. }
    destruct e; auto.
    intros [= <- <-]; simpl; repeat split; auto using grows_refl; discriminate.
Qed.

Lemma mkdir_parents_sound (p : Path) :
  forall (exist_ok : bool) (w w' : World) (r : result unit),
  mkdir_parents exist_ok p w = (r, w') ->
  stdout w' = stdout w /\ grows (fs w) (fs w') /\
  (r = OK tt -> isdir (fs w') p = true).
Proof.
  induction p as [|name par IH]; intros exist_ok w w' r; rewrite run_mkdir_parents.
  - simpl. rewrite run_except_OSError. simpl.
    destruct exist_ok; intros [= <- <-]; simpl; repeat split;
      auto using grows_refl; discriminate.
  - destruct (Fs.mkdir (fs w) (name :: par)) as [fs'|e] eqn:Hmk.
    + intros [= <- <-]. apply Fs_mkdir_OK in Hmk. simpl. tauto.
    + assert (Hx : except_OSError exist_ok (name :: par) e
                     (logged w (SysMkdir (name :: par))) = (r, w') ->
                   stdout w' = stdout w /\ grows (fs w) (fs w') /\
                   (r = OK tt -> isdir (fs w') (name :: par) = true)).
      { rewrite run_except_OSError. simpl.
        destruct exist_ok; [destruct (isdir (fs w) (name :: par)) eqn:Hd|];
          intros [= <- <-]; simpl; repeat split;
          auto using grows_refl; discriminate. }
      destruct e; auto.
      destruct (mkdir_parents true par (logged w (SysMkdir (name :: par))))
        as [[[]|e1] w1] eqn:Hpar;
        destruct (IH _ _ _ _ Hpar) as (Hout1 & Hg1 & _); simpl in Hout1, Hg1.
      * intros Hleaf. destruct (mkdir_leaf_sound _ _ _ _ _ Hleaf) as (Hout2 & Hg2 & Hd2).
        split; [congruence|]. split; [eauto using grows_trans | assumption].
      * intros [= <- <-]. repeat split; auto; discriminate.
Qed.

(** On an existing directory [mkdir_gracefully] returns without changing
    the file system. *)
Lemma mkdir_parents_existing (p : Path) (w : World) :
  isdir (fs w) p = true ->
  mkdir_parents true p w
  = (OK tt, mkWorld (fs w) (syscalls w ++ [SysMkdir p; SysStat p]) (stdout w)).
Proof.
  intros Hd. rewrite run_mkdir_parents, (Fs_mkdir_isdir _ _ Hd).
  rewrite run_except_OSError. simpl. rewrite Hd.
  unfold logged; simpl. now rewrite <- app_assoc.
Qed.


End Pathlib.

(** ** Claims about the latest-entry resolver *)

(** C1 (the resolver raises exactly when a prefix-matching name has a
    remainder after the prefix that is not a base-10 integer).  The program
    does not strip the prefix: [lstrip] removes every leading character that
    occurs in the prefix.  On the listing [courses1] the remainder [s1] is
    not an integer and the specification's resolver raises, but the
    program's key is [int("1")], so it answers [courses1]; it even prefers
    [courses10] to [course2].  The same holds for weeks ([weeke7]). *)
Theorem C1_malformed_suffix_is_accepted :
  Py.startswith "courses1" "course" = true /\
  Py.int (spec_remainder "course" "courses1") = Err ValueError /\
  spec_find_latest "course" ["courses1"] = Err ValueError /\
  latest_of Course ["courses1"] = OK (Some "courses1") /\
  latest_of Course ["course2"; "courses10"] = OK (Some "courses10") /\
  Py.int (spec_remainder "week" "weeke7") = Err ValueError /\
  latest_of Week ["weeke7"] = OK (Some "weeke7").
Proof. repeat split; vm_compute; reflexivity. Qed.

(** C3: on names that all consist of the prefix followed by an integer, with
    pairwise distinct integers, the resolver returns the name whose integer
    is strictly greater than that of every other name; the comparison is
    numeric, so among [course1], [course2] and [course10] it returns
    [course10]. *)
Theorem C3_latest_is_numeric_maximum :
  (forall (lvl : Level) (suffixes : list string),
      suffixes <> [] ->
      (forall s, In s suffixes -> exists z, Py.int s = OK z) ->
      NoDup (map Py.int suffixes) ->
      exists s z,
        In s suffixes /\ Py.int s = OK z /\
        latest_of lvl (map (append (prefix_of lvl)) suffixes)
        = OK (Some (prefix_of lvl ++ s)%string) /\
        (forall s' z', In s' suffixes -> s' <> s -> Py.int s' = OK z' -> z' < z)) /\
  latest_of Course ["course1"; "course2"; "course10"] = OK (Some "course10").
Proof.
  split; [|vm_compute; reflexivity].
  intros lvl suffixes Hne Hnum Hdistinct.
  set (names := map (append (prefix_of lvl)) suffixes).
  assert (Hkeys : forall n, In n names -> exists z, key_of lvl n = OK z).
  { intros n Hn. apply in_map_iff in Hn. destruct Hn as (s & <- & Hs).
    destruct (Hnum s Hs) as (z & Hz). exists z. now apply key_numeric. }
  assert (Hnames : names <> []).
  { unfold names. destruct suffixes; [congruence | discriminate]. }
  destruct (max_bounds (key_of lvl) names Hnames Hkeys)
    as (b & vb & Hmax & Hkb & Hin & Hub).
  apply in_map_iff in Hin. destruct Hin as (s & <- & Hs).
  destruct (Hnum s Hs) as (z & Hz).
  assert (vb = z) by (rewrite (key_numeric lvl s z Hz) in Hkb; congruence). subst vb.
  exists s, z. split; [assumption|]. split; [assumption|]. split.
  - rewrite latest_of_eq.
    rewrite (filter_all _ names).
    + destruct names as [|x l]; [congruence|]. now rewrite Hmax.
    + intros n Hn. apply in_map_iff in Hn. destruct Hn as (t & <- & _).
      apply startswith_append.
  - intros s' z' Hs' Hdiff Hz'.
    assert (z' <= z).
    { apply (Hub (prefix_of lvl ++ s')%string).
      - apply in_map_iff. now exists s'.
      - now apply key_numeric. }
    assert (z' <> z).
    { intros ->. apply Hdiff.
      apply (NoDup_map_eq Py.int suffixes s' s Hdistinct Hs' Hs). congruence. }
    lia.
Qed.

Lemma C3_witness :
  latest_of Week ["week1"; "week2"; "week10"] = OK (Some "week10").
Proof.
  destruct (proj1 C3_latest_is_numeric_maximum Week ["1"; "2"; "10"])
    as (s & z & Hin & Hz & Hres & Hmax).
  - discriminate.
  - intros s [<-|[<-|[<-|[]]]]; eexists; vm_compute; reflexivity.
  - repeat constructor; simpl; intuition discriminate.
  - destruct Hin as [<-|[<-|[<-|[]]]].
    + exfalso. assert (10 < z) by (apply (Hmax "10"); simpl; auto; discriminate).
      vm_compute in Hz. injection Hz as <-. lia.
    + exfalso. assert (10 < z) by (apply (Hmax "10"); simpl; auto; discriminate).
      vm_compute in Hz. injection Hz as <-. lia.
    + exact Hres.
Defined.

(** C6: when no name of the listing starts with the prefix, the resolver
    answers [None]; it neither raises nor returns a name. *)
Theorem C6_no_match_gives_none (lvl : Level) (names : list string) :
  (forall n, In n names -> Py.startswith n (prefix_of lvl) = false) ->
  latest_of lvl names = OK None.
Proof. apply latest_of_none. Qed.

Lemma C6_witness : latest_of Week ["notes.txt"; "Week4"; "course1"] = OK None.
Proof.
  apply C6_no_match_gives_none.
  intros n [<-|[<-|[<-|[]]]]; reflexivity.
Defined.

(** C9: when all keys can be computed, the resolver returns the first name,
    in listing order, whose key is maximal: names in front of it have
    strictly smaller keys, names behind it keys that are at most equal. *)
Theorem C9_first_maximal_name_wins
        (lvl : Level) (names before after : list string) (best : string) (k : Z) :
  filter (fun n => Py.startswith n (prefix_of lvl)) names = (before ++ best :: after)%list ->
  key_of lvl best = OK k ->
  (forall m, In m before -> exists j, key_of lvl m = OK j /\ j < k) ->
  (forall m, In m after -> exists j, key_of lvl m = OK j /\ j <= k) ->
  latest_of lvl names = OK (Some best).
Proof.
  intros Hf Hbest Hlow Hhigh. rewrite latest_of_eq, Hf.
  pose proof (max_first_maximal (key_of lvl) before after best k Hbest Hlow Hhigh) as Hmax.
  destruct (before ++ best :: after)%list as [|x l] eqn:Hl.
  - destruct before; discriminate.
  - now rewrite Hmax.
Qed.

Lemma C9_witness :
  latest_of Course ["course2"; "notes"; "course02"] = OK (Some "course2") /\
  latest_of Course ["course02"; "notes"; "course2"] = OK (Some "course02").
Proof.
  split.
  - apply (C9_first_maximal_name_wins Course _ [] ["course02"] "course2" 2).
    + reflexivity.
    + reflexivity.
    + intros m [].
    + intros m [<-|[]]. exists 2. split; [reflexivity | lia].
  - apply (C9_first_maximal_name_wins Course _ [] ["course2"] "course02" 2).
    + reflexivity.
    + reflexivity.
    + intros m [].
    + intros m [<-|[]]. exists 2. split; [reflexivity | lia].
Defined.


(** ** Claims about the directory materializer *)



(** ** Runs of [main] *)

Section Pipeline.

Lemma contains_In (choices : list string) (value : string) :
  contains choices value = true <-> In value choices.
Proof.
  unfold contains. rewrite existsb_exists. split.
  - intros (x & Hx & Heq). apply String.eqb_eq in Heq. now subst.
  - intros H. exists value. split; [assumption | apply String.eqb_refl].
Qed.

Lemma run_check_value (argument : string) (choices : list string)
      (value : string) (w : World) :
  check_value create_parser argument choices value w =
  if contains choices value then (OK tt, w)
  else (Err (SystemExit 2 ("argument " ++ argument ++ ": invalid choice: " ++ value)%string), w).
Proof. unfold check_value. destruct (contains choices value); reflexivity. Qed.

(** [parse_args] leaves the world alone; it returns a namespace whose
    [directory] is an alias of [COURSES] and whose [hw] is ["c"] or
    ["h"], or exits with status 2. *)
Lemma parse_args_cases (argv : CommandLine) (w : World) :
  (exists msg, parse_args create_parser argv w = (Err (SystemExit 2 msg), w)) \/
  (exists d m,
      parse_args create_parser argv w
      = (OK (mkNamespace d m (opt_c argv) (opt_w argv)), w) /\
      In d ["p"; "a"] /\ In m ["c"; "h"] /\
      (positionals argv = [d; m] \/ (positionals argv = [d] /\ m = "h"))).
Proof.
  unfold parse_args.
  destruct (positionals argv) as [|d [|m [|x extras]]];
    unfold bind; rewrite ?run_check_value.
  - left. eexists. reflexivity.
  - change (directory_choices create_parser) with ["p"; "a"].
    destruct (contains ["p"; "a"] d) eqn:Hd; [|left; eexists; reflexivity].
    rewrite run_check_value. right. exists d, "h".
    split; [reflexivity|]. split; [now apply contains_In|].
    split; [simpl; auto | right; auto].
  - change (directory_choices create_parser) with ["p"; "a"].
    destruct (contains ["p"; "a"] d) eqn:Hd; [|left; eexists; reflexivity].
    rewrite run_check_value. change (hw_choices create_parser) with ["c"; "h"].
    destruct (contains ["c"; "h"] m) eqn:Hm; [|left; eexists; reflexivity].
    right. exists d, m.
    split; [reflexivity|]. split; [now apply contains_In|].
    split; [now apply contains_In | left; reflexivity].
  - change (directory_choices create_parser) with ["p"; "a"].
    destruct (contains ["p"; "a"] d) eqn:Hd; [|left; eexists; reflexivity].
    rewrite run_check_value. change (hw_choices create_parser) with ["c"; "h"].
    destruct (contains ["c"; "h"] m) eqn:Hm; left; eexists; reflexivity.
Qed.

(** [main], one step after the other. *)
Lemma main_eq (env : Env) (argv : CommandLine) (w : World) :
  main env argv w =
  match parse_args create_parser argv w with
  | (Err e, w0) => (Err e, w0)
  | (OK args, w0) =>
      match getitem Config.COURSES (directory args) with
      | Err e => (Err e, w0)
      | OK selected_dirname =>
          let base_path := joinpath (Config.MAGSHIMIM_DIR_PATH env) selected_dirname in
          match mkdir_gracefully base_path w0 with
          | (Err e, w1) => (Err e, w1)
          | (OK _, w1) =>
              match get_course base_path args w1 with
              | (Err e, w2) => (Err e, w2)
              | (OK None, w2) => (Err (SystemExit 2 no_course_message), w2)
              | (OK (Some course), w2) =>
                  let course_path := joinpath base_path course in
                  match get_week course_path args w2 with
                  | (Err e, w3) => (Err e, w3)
                  | (OK None, w3) => (Err (SystemExit 2 no_week_message), w3)
                  | (OK (Some week), w3) =>
                      let week_path := joinpath course_path week in
                      if String.eqb (hw args) "c" then
                        (OK tt, printed w3 (str (joinpath week_path "classwork")))
                      else if String.eqb (hw args) "h" then
                        (OK tt, printed w3 (str (joinpath (joinpath week_path "homework") "answ")))
                      else (OK tt, printed w3 (str week_path))
                  end
              end
          end
      end
  end.
Proof.
  unfold main, bind, lift, error, raise, ret.
  destruct (parse_args create_parser argv w) as [[args|e] w0]; [|reflexivity].
  destruct (getitem Config.COURSES (directory args)) as [dirname|e]; [|reflexivity].
  cbv zeta.
  destruct (mkdir_gracefully _ w0) as [[[]|e] w1]; [|reflexivity].
  destruct (get_course _ args w1) as [[[course|]|e] w2]; try reflexivity.
  destruct (get_week _ args w2) as [[[week|]|e] w3]; try reflexivity.
  destruct (String.eqb (hw args) "c"); [reflexivity|].
  destruct (String.eqb (hw args) "h"); reflexivity.
Qed.

Lemma run_os_listdir (p : Path) (w : World) :
  os.listdir p w = (Fs.listdir (fs w) p, logged w (SysListdir p)).
Proof. reflexivity. Qed.

(** The lookups read one directory and change nothing but the trace. *)
Lemma run_get_latest_course (dir : Path) (w : World) :
  get_latest_course dir w =
  (rbind (Fs.listdir (fs w) dir) latest_course_of, logged w (SysListdir dir)).
Proof.
  unfold get_latest_course, bind, lift. rewrite run_os_listdir.
  destruct (Fs.listdir (fs w) dir); reflexivity.
Qed.

Lemma run_get_latest_week (dir : Path) (w : World) :
  get_latest_week dir w =
  (rbind (Fs.listdir (fs w) dir) latest_week_of, logged w (SysListdir dir)).
Proof.
  unfold get_latest_week, bind, lift. rewrite run_os_listdir.
  destruct (Fs.listdir (fs w) dir); reflexivity.
Qed.

(** The week scaffold: nothing is printed, the file system only grows,
    and when the call returns the three directories exist. *)
Lemma create_week_dir_sound (week_path : Path) (w w' : World) (r : result unit) :
  Config.create_week_dir week_path w = (r, w') ->
  stdout w' = stdout w /\ grows (fs w) (fs w') /\
  (r = OK tt ->
   isdir (fs w') (joinpath week_path "classwork") = true /\
   isdir (fs w') (joinpath (joinpath week_path "homework") "src") = true /\
   isdir (fs w') (joinpath (joinpath week_path "homework") "answ") = true).
Proof.
  unfold Config.create_week_dir, mkdir_gracefully, bind. cbv zeta.
  destruct (mkdir_parents true (joinpath week_path "classwork") w)
    as [[[]|e1] w1] eqn:H1;
    destruct (mkdir_parents_sound _ _ _ _ _ H1) as (Ho1 & Hg1 & Hd1);
    [|intros [= <- <-]; repeat split; auto; discriminate].
  destruct (mkdir_parents true (joinpath (joinpath week_path "homework") "src") w1)
    as [[[]|e2] w2] eqn:H2;
    destruct (mkdir_parents_sound _ _ _ _ _ H2) as (Ho2 & Hg2 & Hd2);
    [|intros [= <- <-]; split; [congruence|];
      split; [eauto using grows_trans | discriminate]].
  intros H3. destruct (mkdir_parents_sound _ _ _ _ _ H3) as (Ho3 & Hg3 & Hd3).
  split; [congruence|]. split; [eauto using grows_trans|].
  intros Hr. split; [|split].
  - eauto using isdir_grows, grows_trans.
  - eauto using isdir_grows.
  - auto.
Qed.

Lemma get_course_sound (path : Path) (args : Namespace) (w w' : World)
      (r : result (option string)) :
  get_course path args w = (r, w') ->
  stdout w' = stdout w /\ grows (fs w) (fs w') /\
  (c args = None -> fs w' = fs w).
Proof.
  unfold get_course. destruct (c args) as [course_id|].
  - unfold bind, mkdir_gracefully.
    destruct (mkdir_parents true _ w) as [[[]|e] w1] eqn:H1;
      destruct (mkdir_parents_sound _ _ _ _ _ H1) as (Ho & Hg & _);
      intros [= <- <-]; repeat split; auto; discriminate.
  - rewrite run_get_latest_course. intros [= <- <-].
    repeat split; auto using grows_refl.
Qed.

Lemma get_week_sound (course_path : Path) (args : Namespace) (w w' : World)
      (r : result (option string)) :
  get_week course_path args w = (r, w') ->
  stdout w' = stdout w /\ grows (fs w) (fs w') /\
  (argparse.w args = None -> fs w' = fs w).
Proof.
  unfold get_week. destruct (argparse.w args) as [week_id|].
  - unfold bind.
    destruct (Config.create_week_dir _ w) as [[[]|e] w1] eqn:H1;
      destruct (create_week_dir_sound _ _ _ _ H1) as (Ho & Hg & _);
      intros [= <- <-]; repeat split; auto; discriminate.
  - rewrite run_get_latest_week. intros [= <- <-].
    repeat split; auto using grows_refl.
Qed.


Lemma run_get_week_explicit (course_path : Path) (args : Namespace)
      (week_id : string) (w : World) :
  argparse.w args = Some week_id ->
  get_week course_path args w =
  match Config.create_week_dir
          (joinpath course_path (Config.WEEK_IDENTIFICATION_TO_DIR week_id)) w with
  | (OK _, w') => (OK (Some (Config.WEEK_IDENTIFICATION_TO_DIR week_id)), w')
  | (Err e, w') => (Err e, w')
  end.
Proof.
  intros Hw. unfold get_week. rewrite Hw. unfold bind.
  destruct (Config.create_week_dir _ w) as [[[]|e] w']; reflexivity.
Qed.

Lemma run_get_course_explicit (path : Path) (args : Namespace)
      (course_id : string) (w : World) :
  c args = Some course_id ->
  get_course path args w =
  match mkdir_gracefully
          (joinpath path (Config.COURSE_IDENTIFICATION_TO_DIR course_id)) w with
  | (OK _, w') => (OK (Some (Config.COURSE_IDENTIFICATION_TO_DIR course_id)), w')
  | (Err e, w') => (Err e, w')
  end.
Proof.
  intros Hc. unfold get_course. rewrite Hc. unfold bind.
  destruct (mkdir_gracefully _ w) as [[[]|e] w']; reflexivity.
Qed.

End Pipeline.

(** ** Claims about the pipeline *)

(** C8: when the category alias is not one of the configured aliases, or
    the leaf mode is given and is not one of the two modes, [main] exits
    with status 2 and a usage message, and the world is the one it started
    in: no system call was made, so no directory was listed or created. *)
Theorem C8_usage_error_before_file_system
        (env : Env) (argv : CommandLine) (w : World) :
  invalid_alias argv \/ invalid_mode argv ->
  exists message, main env argv w = (Err (SystemExit 2 message), w).
Proof.
  intros Hbad. rewrite main_eq.
  destruct (parse_args_cases argv w) as [(msg & ->)|(d & m & _ & Hd & Hm & Hpos)].
  - now exists msg.
  - exfalso. unfold invalid_alias, invalid_mode in Hbad.
    destruct Hpos as [Hpos|(Hpos & _)]; rewrite Hpos in Hbad; tauto.
Qed.

Lemma C8_witness :
  (exists message,
      main Sample.env (mkCommandLine ["x"] None None) Sample.lessons
      = (Err (SystemExit 2 message), Sample.lessons)) /\
  (exists message,
      main Sample.env (mkCommandLine ["a"; "x"] (Some "1") (Some "1")) Sample.lessons
      = (Err (SystemExit 2 message), Sample.lessons)).
Proof.
  split; apply C8_usage_error_before_file_system.
  - left. unfold invalid_alias. simpl. intuition discriminate.
  - right. unfold invalid_mode. simpl. intuition discriminate.
Defined.

Section Printing.

Lemma append_empty_r (s : string) : (s ++ "")%string = s.
Proof. induction s as [|a s IH]; simpl; [reflexivity | now rewrite IH]. Qed.

Lemma append_assoc (a b c : string) :
  ((a ++ b) ++ c)%string = (a ++ (b ++ c))%string.
Proof. induction a as [|x a IH]; simpl; [reflexivity | now rewrite IH]. Qed.

Lemma concat_cons (a : string) (l : list string) :
  String.concat "" (a :: l) = (a ++ String.concat "" l)%string.
Proof. destruct l; simpl; [now rewrite append_empty_r | reflexivity]. Qed.

Lemma concat_app (l1 l2 : list string) :
  String.concat "" (l1 ++ l2)
  = (String.concat "" l1 ++ String.concat "" l2)%string.
Proof.
  induction l1 as [|a l1 IH]; [reflexivity|].
  rewrite <- app_comm_cons, !concat_cons, IH. now rewrite append_assoc.
Qed.

(** The printed form of a path ends with its last component. *)
Lemma str_last (name : string) (path : Path) :
  exists front, str (name :: path) = (front ++ "/" ++ name)%string.
Proof.
  exists (String.concat "" (map (fun c => ("/" ++ c)%string) (rev path))).
  unfold str. simpl rev.
  destruct (rev path ++ [name]) as [|x l] eqn:Hrev.
  - now destruct (rev path).
  - rewrite <- Hrev, map_app, concat_app. reflexivity.
Qed.

Lemma str_last_two (inner outer : string) (path : Path) :
  exists front,
    str (inner :: outer :: path) = (front ++ "/" ++ outer ++ "/" ++ inner)%string.
Proof.
  destruct (str_last outer path) as (front & Hfront).
  exists front. unfold str in *. simpl rev in *.
  destruct (rev path ++ [outer]) as [|x l] eqn:Hrev; [now destruct (rev path)|].
  destruct ((x :: l) ++ [inner]) as [|y l'] eqn:Hrev'; [discriminate|].
  rewrite <- Hrev', map_app, concat_app, Hfront. simpl.
  now rewrite !append_assoc.
Qed.

End Printing.

Section Stages.

(** The category root of an accepted alias. *)
Lemma category_root (env : Env) (d : string) :
  In d ["p"; "a"] ->
  exists dirname,
    getitem Config.COURSES d = OK dirname /\
    In (d, dirname) Config.COURSES /\
    joinpath (Config.MAGSHIMIM_DIR_PATH env) dirname
    = dirname :: "Magshimim" :: home env.
Proof.
  intros [<-|[<-|[]]].
  - exists "programming_cpp". repeat split. simpl. auto.
  - exists "assembly". repeat split. simpl. auto.
Qed.

End Stages.

(** C10: an accepted command line has leaf mode ["c"] or ["h"]; a run that
    returns has therefore printed exactly one line, the [classwork]
    directory of the week in mode ["c"] and its [homework/answ] directory in
    mode ["h"], and never the bare week directory. *)
Theorem C10_leaf_mode_is_c_or_h
        (env : Env) (argv : CommandLine) (w w0 : World) (args : Namespace) :
  parse_args create_parser argv w = (OK args, w0) ->
  (hw args = "c" \/ hw args = "h") /\
  forall w', main env argv w = (OK tt, w') ->
    exists week_path line front,
      stdout w' = stdout w ++ [line] /\
      ((hw args = "c" /\ line = str ("classwork" :: week_path) /\
        line = (front ++ "/classwork")%string) \/
       (hw args = "h" /\ line = str ("answ" :: "homework" :: week_path) /\
        line = (front ++ "/homework/answ")%string)).
Proof.
  intros Hparse.
  destruct (parse_args_cases argv w) as [(msg & Hp)|(d & m & Hp & Hd & Hm & _)];
    rewrite Hp in Hparse; [discriminate|].
  injection Hparse as <- <-. simpl hw.
  assert (Hmode : m = "c" \/ m = "h") by (simpl in Hm; intuition).
  split; [exact Hmode|].
  intros w'. rewrite main_eq, Hp. simpl directory. simpl hw.
  destruct (category_root env d Hd) as (dirname & -> & _ & _). cbv zeta.
  destruct (mkdir_gracefully _ w) as [[[]|e] w1] eqn:H1; [|discriminate].
  destruct (mkdir_parents_sound _ _ _ _ _ H1) as (Ho1 & _ & _).
  destruct (get_course _ _ w1) as [[[course|]|e] w2] eqn:H2; try discriminate.
  destruct (get_course_sound _ _ _ _ _ H2) as (Ho2 & _ & _).
  destruct (get_week _ _ w2) as [[[week|]|e] w3] eqn:H3; try discriminate.
  destruct (get_week_sound _ _ _ _ _ H3) as (Ho3 & _ & _).
  set (week_path := joinpath (joinpath _ course) week).
  assert (Hout : stdout w3 = stdout w) by congruence.
  destruct Hmode as [-> | ->]; simpl; intros [= <-]; simpl; rewrite Hout.
  - destruct (str_last "classwork" week_path) as (front & Hfront).
    exists week_path, (str ("classwork" :: week_path)), front.
    split; [reflexivity|]. left. auto.
  - destruct (str_last_two "answ" "homework" week_path) as (front & Hfront).
    exists week_path, (str ("answ" :: "homework" :: week_path)), front.
    split; [reflexivity|]. right. auto.
Qed.

Lemma C10_witness :
  exists week_path line front,
    stdout (snd (main Sample.env (mkCommandLine ["a"] None None) Sample.lessons))
    = stdout Sample.lessons ++ [line] /\
    (("h" = "c" /\ line = str ("classwork" :: week_path) /\
      line = (front ++ "/classwork")%string) \/
     ("h" = "h" /\ line = str ("answ" :: "homework" :: week_path) /\
      line = (front ++ "/homework/answ")%string)).
Proof.
  pose proof (C10_leaf_mode_is_c_or_h Sample.env (mkCommandLine ["a"] None None)
                Sample.lessons Sample.lessons
                (mkNamespace "a" "h" None None) eq_refl) as (_ & Hrun).
  destruct (main Sample.env (mkCommandLine ["a"] None None) Sample.lessons)
    as [r w'] eqn:Hmain.
  apply Hrun. vm_compute in Hmain. now injection Hmain as <- <-.
Defined.

(** C7: with no explicit identifier and no entry of the listed directory
    that carries the prefix, [main] exits with status 2 and the message that
    names the flag to supply.  This holds for the course, looked up in the
    category root, and for the week, looked up in the selected course.  In
    particular a run without [-c] on a category root that is empty, or that
    does not exist yet, exits with status 2 and the message about the
    course directory. *)
Theorem C7_nothing_to_select_exits :
  (forall (env : Env) (argv : CommandLine) (w w1 : World) (args : Namespace)
          (dirname : string),
      parse_args create_parser argv w = (OK args, w) ->
      getitem Config.COURSES (directory args) = OK dirname ->
      mkdir_gracefully (joinpath (Config.MAGSHIMIM_DIR_PATH env) dirname) w
      = (OK tt, w1) ->
      let base_path := joinpath (Config.MAGSHIMIM_DIR_PATH env) dirname in
      (c args = None ->
       forall names,
         Fs.listdir (fs w1) base_path = OK names ->
         (forall n, In n names -> Config.IS_COURSE_DIR n = false) ->
         main env argv w
         = (Err (SystemExit 2 no_course_message), logged w1 (SysListdir base_path))) /\
      (argparse.w args = None ->
       forall course w2 names,
         get_course base_path args w1 = (OK (Some course), w2) ->
         Fs.listdir (fs w2) (joinpath base_path course) = OK names ->
         (forall n, In n names -> Config.IS_WEEK_DIR n = false) ->
         main env argv w
         = (Err (SystemExit 2 no_week_message),
            logged w2 (SysListdir (joinpath base_path course))))) /\
  fst (main Sample.env (mkCommandLine ["a"] None None) Sample.no_course)
  = Err (SystemExit 2 "no course dir to use. Please specify with -c flag") /\
  fst (main Sample.env (mkCommandLine ["a"] None None) Sample.empty)
  = Err (SystemExit 2 "no course dir to use. Please specify with -c flag").
Proof.
  split; [|split; vm_compute; reflexivity].
  intros env argv w w1 args dirname Hparse Hdir Hroot base_path. subst base_path. split.
  - intros Hc names Hls Hnone.
    rewrite main_eq, Hparse, Hdir. cbv zeta. rewrite Hroot.
    unfold get_course. rewrite Hc, run_get_latest_course, Hls. simpl.
    now rewrite (latest_of_none Course names Hnone : latest_course_of names = OK None).
  - intros Hw course w2 names Hcourse Hls Hnone.
    rewrite main_eq, Hparse, Hdir. cbv zeta. rewrite Hroot, Hcourse.
    unfold get_week. rewrite Hw, run_get_latest_week, Hls. simpl.
    now rewrite (latest_of_none Week names Hnone : latest_week_of names = OK None).
Qed.

Lemma C7_witness :
  (exists w',
      main Sample.env (mkCommandLine ["a"] None None) Sample.no_course
      = (Err (SystemExit 2 no_course_message), w') /\ fs w' = fs Sample.no_course) /\
  (exists w',
      main Sample.env (mkCommandLine ["a"] (Some "9") None) Sample.no_course
      = (Err (SystemExit 2 no_week_message), w')).
Proof.
  split.
  - pose proof (proj1 C7_nothing_to_select_exits
                  Sample.env (mkCommandLine ["a"] None None) Sample.no_course
                  (snd (mkdir_gracefully ("assembly" :: Sample.magshimim) Sample.no_course))
                  (mkNamespace "a" "h" None None) "assembly"
                  eq_refl eq_refl eq_refl) as (Hcourse & _).
    eexists. split.
    + apply (Hcourse eq_refl []); [reflexivity | intros n []].
    + reflexivity.
  - pose proof (proj1 C7_nothing_to_select_exits
                  Sample.env (mkCommandLine ["a"] (Some "9") None) Sample.no_course
                  (snd (mkdir_gracefully ("assembly" :: Sample.magshimim) Sample.no_course))
                  (mkNamespace "a" "h" (Some "9") None) "assembly"
                  eq_refl eq_refl eq_refl) as (_ & Hweek).
    eexists.
    apply (Hweek eq_refl "course9"
             (snd (get_course ("assembly" :: Sample.magshimim)
                     (mkNamespace "a" "h" (Some "9") None)
                     (snd (mkdir_gracefully ("assembly" :: Sample.magshimim)
                             Sample.no_course))))
             []); [reflexivity | reflexivity | intros n []].
Defined.



(** C2, as the program has it: without an identifier [get_course] and
    [get_week] only look up and leave the file system as it is, but [main]
    materializes the category root on every run; so a run without [-c] and
    [-w] may create that directory (with its missing ancestors) and nothing
    else.  When the category root exists already, the file system after
    the run is the one before it.  In particular, alias ["a"],
    mode ["c"], on a root that holds only [course3] with [week1] and [week7],
    prints [.../assembly/course3/week7/classwork] and creates nothing. *)
Theorem C2_lookup_creates_only_category_root :
  (forall (path : Path) (args : Namespace) (w w' : World) (r : result (option string)),
      c args = None ->
      get_course path args w = (r, w') ->
      fs w' = fs w /\ stdout w' = stdout w) /\
  (forall (path : Path) (args : Namespace) (w w' : World) (r : result (option string)),
      argparse.w args = None ->
      get_week path args w = (r, w') ->
      fs w' = fs w /\ stdout w' = stdout w) /\
  (forall (env : Env) (argv : CommandLine) (w w' : World) (r : result unit),
      opt_c argv = None ->
      opt_w argv = None ->
      main env argv w = (r, w') ->
      fs w' = fs w \/
      exists alias rest dirname,
        positionals argv = alias :: rest /\
        In (alias, dirname) Config.COURSES /\
        let base_path := dirname :: "Magshimim" :: home env in
        isdir (fs w) base_path = false /\
        fs w' = fs (snd (mkdir_gracefully base_path w))) /\
  (let run := main Sample.env (mkCommandLine ["a"; "c"] None None) Sample.lessons in
   fst run = OK tt /\
   stdout (snd run) = ["/home/user/Magshimim/assembly/course3/week7/classwork"] /\
   fs (snd run) = fs Sample.lessons).
Proof.
  split; [|split; [|split; [|vm_compute; repeat split]]].
  { intros path args w w' r Hc Hrun.
    destruct (get_course_sound _ _ _ _ _ Hrun) as (Hout & _ & Hfs). auto. }
  { intros path args w w' r Hw Hrun.
    destruct (get_week_sound _ _ _ _ _ Hrun) as (Hout & _ & Hfs). auto. }
  intros env argv w w' r Hc Hw.
  rewrite main_eq.
  destruct (parse_args_cases argv w) as [(msg & ->)|(d & m & -> & Hd & _ & Hpos)];
    [intros [= <- <-]; now left|].
  simpl directory. simpl hw.
  destruct (category_root env d Hd) as (dirname & -> & Hin & ->). cbv zeta.
  set (base_path := dirname :: "Magshimim" :: home env).
  set (args := mkNamespace d m (opt_c argv) (opt_w argv)).
  intros Hrun.
  assert (Hafter : fs w' = fs (snd (mkdir_gracefully base_path w))).
  { destruct (mkdir_gracefully base_path w) as [[[]|e] w1]; simpl;
      [|now injection Hrun as <- <-].
    destruct (get_course base_path args w1) as [rc w2] eqn:H2.
    destruct (get_course_sound _ _ _ _ _ H2) as (_ & _ & Hfs2).
    specialize (Hfs2 Hc). rewrite <- Hfs2.
    destruct rc as [[course|]|e]; try (now injection Hrun as <- <-).
    destruct (get_week (joinpath base_path course) args w2) as [rw w3] eqn:H3.
    destruct (get_week_sound _ _ _ _ _ H3) as (_ & _ & Hfs3).
    specialize (Hfs3 Hw). rewrite <- Hfs3.
    destruct rw as [[week|]|e]; try (now injection Hrun as <- <-).
    destruct (String.eqb m "c"); [now injection Hrun as <- <-|].
    destruct (String.eqb m "h"); now injection Hrun as <- <-. }
  destruct (isdir (fs w) base_path) eqn:Hd0.
  - left. rewrite Hafter. unfold mkdir_gracefully.
    now rewrite (mkdir_parents_existing _ _ Hd0).
  - right. destruct Hpos as [Hpos|(Hpos & _)].
    + exists d, [m], dirname. auto.
    + exists d, [], dirname. auto.
Qed.

Lemma C2_witness :
  fs (snd (main Sample.env (mkCommandLine ["a"] None None) Sample.lessons))
  = fs Sample.lessons.
Proof.
  destruct (main Sample.env (mkCommandLine ["a"] None None) Sample.lessons)
    as [r w'] eqn:Hrun.
  destruct (proj1 (proj2 (proj2 C2_lookup_creates_only_category_root))
                  Sample.env (mkCommandLine ["a"] None None) Sample.lessons w' r
                  eq_refl eq_refl Hrun)
    as [Hsame|(alias & rest & dirname & Hpos & Hin & Hmissing & _)].
  - exact Hsame.
  - exfalso. injection Hpos as <- <-.
    destruct Hin as [[=]|[[= <-]|[]]].
    vm_compute in Hmissing. discriminate.
Defined.

(** The claim C2 as it was stated fails: a run without [-c] and [-w] in a
    home directory without [Magshimim] creates [Magshimim] and
    [Magshimim/assembly] before it reports that there is no course. *)
Lemma C2_counterexample :
  let argv := mkCommandLine ["a"] None None in
  let run := main Sample.env argv Sample.fresh_home in
  opt_c argv = None /\ opt_w argv = None /\
  fs Sample.fresh_home = [ (["home"], Dir); (["user"; "home"], Dir) ] /\
  fst run = Err (SystemExit 2 no_course_message) /\
  fs (snd run) = [ (["home"], Dir); (["user"; "home"], Dir);
                   (["Magshimim"; "user"; "home"], Dir);
                   (["assembly"; "Magshimim"; "user"; "home"], Dir) ].
Proof. vm_compute. repeat split. Qed.

(** * Further properties of the program *)

(** ** The resolver on arbitrary listings *)

Section ResolverMore.

(** When [max] returns, the key of every item was computed. *)
Lemma max_loop_all_keys {X} (key : X -> result Z) (l : list X) :
  forall (maxitem : X) (maxval : Z) (b : X),
    Py.max_loop key maxitem maxval l = OK b ->
    forall x, In x l -> exists z, key x = OK z.
Proof.
  induction l as [|y l IH]; intros maxitem maxval b Hr x Hx; [destruct Hx|].
  simpl in Hr. destruct (key y) as [zy|e] eqn:Hy; simpl in Hr; [|discriminate].
  destruct Hx as [->|Hx]; [eauto|].
  destruct (zy >? maxval); eapply IH; eauto.
Qed.

Lemma max_all_keys {X} (key : X -> result Z) (l : list X) (b : X) :
  Py.max l key = OK b -> forall x, In x l -> exists z, key x = OK z.
Proof.
  destruct l as [|y l]; [discriminate|]. simpl.
  destruct (key y) as [zy|e] eqn:Hy; simpl; [|discriminate].
  intros Hr x [->|Hx]; [eauto|].
  eapply max_loop_all_keys; eauto.
Qed.

(** The answer of the resolver, read back on the listing. *)
Lemma latest_of_Some (lvl : Level) (names : list string) (best : string) :
  latest_of lvl names = OK (Some best) ->
  In best names /\ Py.startswith best (prefix_of lvl) = true /\
  exists k, key_of lvl best = OK k /\
    forall m, In m names -> Py.startswith m (prefix_of lvl) = true ->
              exists j, key_of lvl m = OK j /\ j <= k.
Proof.
  rewrite latest_of_eq.
  destruct (filter _ names) as [|x l] eqn:Hf; [discriminate|].
  destruct (Py.max (x :: l) (key_of lvl)) as [b|e] eqn:Hmax; [|discriminate].
  intros [= ->].
  pose proof (max_all_keys _ _ _ Hmax) as Hkeys.
  assert (Hne : x :: l <> []) by discriminate.
  destruct (max_bounds (key_of lvl) (x :: l) Hne Hkeys)
    as (b & vb & Hmax' & Hkb & Hin & Hub).
  assert (b = best) by congruence. subst b.
  rewrite <- Hf in Hin. apply filter_In in Hin. destruct Hin as [Hin Hpre].
  split; [assumption|]. split; [assumption|].
  exists vb. split; [assumption|].
  intros m Hm Hmpre.
  assert (Hml : In m (x :: l)) by (rewrite <- Hf; apply filter_In; auto).
  destruct (Hkeys m Hml) as (j & Hj). exists j. split; [assumption|].
  now apply (Hub m).
Qed.

Lemma latest_of_None (lvl : Level) (names : list string) :
  latest_of lvl names = OK None ->
  forall n, In n names -> Py.startswith n (prefix_of lvl) = false.
Proof.
  rewrite latest_of_eq.
  destruct (filter _ names) as [|x l] eqn:Hf.
  - intros _ n Hn.
    destruct (Py.startswith n (prefix_of lvl)) eqn:Hpre; [|reflexivity].
    assert (Hin : In n (filter (fun n => Py.startswith n (prefix_of lvl)) names))
      by (apply filter_In; auto).
    rewrite Hf in Hin. destruct Hin.
  - destruct (Py.max (x :: l) (key_of lvl)); discriminate.
Qed.

End ResolverMore.

(** X1: the answer of [get_latest_course] and [get_latest_week] on any
    listing.  It is [None] exactly when no listed name starts with the
    prefix.  A name that is returned is one of the listed names, starts with
    the prefix, and its key is at least the key of every listed name that
    starts with the prefix, all of whose keys could be computed. *)
Theorem X1_latest_answer_is_a_maximal_entry (lvl : Level) (names : list string) :
  (latest_of lvl names = OK None <->
   forall n, In n names -> Py.startswith n (prefix_of lvl) = false) /\
  (forall best, latest_of lvl names = OK (Some best) ->
     In best names /\ Py.startswith best (prefix_of lvl) = true /\
     exists k, key_of lvl best = OK k /\
       forall m, In m names -> Py.startswith m (prefix_of lvl) = true ->
                 exists j, key_of lvl m = OK j /\ j <= k).
Proof.
  split.
  - split; [apply latest_of_None | apply latest_of_none].
  - intros best. apply latest_of_Some.
Qed.

Lemma X1_witness :
  In "week12" ["week3"; "notes"; "week12"; "week012"] /\
  Py.startswith "week12" (prefix_of Week) = true /\
  exists k, key_of Week "week12" = OK k /\
    forall m, In m ["week3"; "notes"; "week12"; "week012"] ->
              Py.startswith m (prefix_of Week) = true ->
              exists j, key_of Week m = OK j /\ j <= k.
Proof.
  apply (proj2 (X1_latest_answer_is_a_maximal_entry
                  Week ["week3"; "notes"; "week12"; "week012"]) "week12").
  reflexivity.
Defined.

(** X2: one listed name that starts with the prefix and whose key cannot
    be computed makes the whole lookup raise [ValueError], whatever else the
    directory holds; such names are not skipped. *)
Theorem X2_one_malformed_entry_raises
        (lvl : Level) (names : list string) (n : string) (e : exn) :
  In n names ->
  Py.startswith n (prefix_of lvl) = true ->
  key_of lvl n = Err e ->
  latest_of lvl names = Err ValueError.
Proof.
  intros Hn Hpre Hkey. rewrite latest_of_eq.
  assert (Hin : In n (filter (fun n => Py.startswith n (prefix_of lvl)) names))
    by (apply filter_In; auto).
  destruct (filter _ names) as [|x l] eqn:Hf; [destruct Hin|].
  destruct (Py.max (x :: l) (key_of lvl)) as [b|e'] eqn:Hmax; simpl.
  - destruct (max_all_keys _ _ _ Hmax n Hin) as (z & Hz). congruence.
  - assert (Hne : x :: l <> []) by discriminate.
    destruct (max_raises _ _ _ Hne Hmax) as (y & _ & Hy).
    now rewrite (int_raises_ValueError _ _ Hy).
Qed.

Lemma X2_witness :
  latest_of Course ["course1"; "course"; "course-final"; "course7"] = Err ValueError.
Proof.
  apply (X2_one_malformed_entry_raises Course _ "course" ValueError).
  - simpl. auto.
  - reflexivity.
  - reflexivity.
Defined.

(** X3: the directory name made from an identifier is recognised by the
    predicate of its level, and when the identifier is an integer the key
    under which the lookup ranks the directory is that integer. *)
Theorem X3_identifier_to_dir_round_trip (id : string) :
  Config.IS_COURSE_DIR (Config.COURSE_IDENTIFICATION_TO_DIR id) = true /\
  Config.IS_WEEK_DIR (Config.WEEK_IDENTIFICATION_TO_DIR id) = true /\
  (forall z, Py.int id = OK z ->
     Py.int (Py.lstrip (Config.COURSE_IDENTIFICATION_TO_DIR id) "course") = OK z /\
     Py.int (Py.lstrip (Config.WEEK_IDENTIFICATION_TO_DIR id) "week") = OK z).
Proof.
  split; [apply (startswith_append "course")|].
  split; [apply (startswith_append "week")|].
  intros z Hz. split.
  - apply (key_numeric Course id z Hz).
  - apply (key_numeric Week id z Hz).
Qed.

Lemma X3_witness :
  Py.int (Py.lstrip (Config.COURSE_IDENTIFICATION_TO_DIR " +1_2 ") "course") = OK 12 /\
  Py.int (Py.lstrip (Config.WEEK_IDENTIFICATION_TO_DIR " +1_2 ") "week") = OK 12.
Proof.
  apply (proj2 (proj2 (X3_identifier_to_dir_round_trip " +1_2 "))).
  reflexivity.
Defined.

(** X4: a directory made for an integer identifier that is greater than the
    key of every other course (or week) of the listing is the one the
    lookup selects, wherever it stands in the listing. *)
Theorem X4_new_highest_identifier_is_selected
        (lvl : Level) (before after : list string) (id : string) (z : Z) :
  Py.int id = OK z ->
  (forall m, In m (before ++ after) -> Py.startswith m (prefix_of lvl) = true ->
             exists j, key_of lvl m = OK j /\ j < z) ->
  latest_of lvl (before ++ (prefix_of lvl ++ id)%string :: after)
  = OK (Some (prefix_of lvl ++ id)%string).
Proof.
  intros Hz Hlow. rewrite latest_of_eq, filter_app. simpl filter.
  rewrite startswith_append.
  set (keep := fun n => Py.startswith n (prefix_of lvl)).
  set (new := (prefix_of lvl ++ id)%string).
  assert (Hmax : Py.max (filter keep before ++ new :: filter keep after) (key_of lvl)
                 = OK new).
  { apply max_first_maximal with z.
    - now apply key_numeric.
    - intros m Hm. apply filter_In in Hm. destruct Hm as [Hm Hpre].
      apply Hlow; [apply in_or_app; now left | assumption].
    - intros m Hm. apply filter_In in Hm. destruct Hm as [Hm Hpre].
      destruct (Hlow m) as (j & Hj & Hlt);
        [apply in_or_app; now right | assumption|].
      exists j. split; [assumption | lia]. }
  destruct (filter keep before ++ new :: filter keep after) as [|x l] eqn:Hl.
  - destruct (filter keep before); discriminate.
  - now rewrite Hmax.
Qed.

Lemma X4_witness :
  latest_of Course (["course2"; "todo"] ++ "course10" :: ["course9"])
  = OK (Some "course10").
Proof.
  apply (X4_new_highest_identifier_is_selected Course _ _ "10" 10 eq_refl).
  intros m [<-|[<-|[<-|[]]]]; try discriminate.
  - intros _. exists 2. split; [reflexivity | lia].
  - intros _. exists 9. split; [reflexivity | lia].
Defined.

(** ** The steps of the pipeline, one by one *)

Section StepsMore.

Lemma mkdir_gracefully_existing (p : Path) (w : World) :
  isdir (fs w) p = true ->
  exists w', mkdir_gracefully p w = (OK tt, w') /\
             fs w' = fs w /\ stdout w' = stdout w.
Proof.
  intros Hd. unfold mkdir_gracefully. rewrite (mkdir_parents_existing _ _ Hd).
  eexists. split; [reflexivity|]. split; reflexivity.
Qed.

(** On a week that has its three directories the scaffold changes
    nothing. *)
Lemma create_week_dir_existing (week_path : Path) (w : World) :
  isdir (fs w) (joinpath week_path "classwork") = true ->
  isdir (fs w) (joinpath (joinpath week_path "homework") "src") = true ->
  isdir (fs w) (joinpath (joinpath week_path "homework") "answ") = true ->
  exists w', Config.create_week_dir week_path w = (OK tt, w') /\
             fs w' = fs w /\ stdout w' = stdout w.
Proof.
  intros Hcw Hsrc Hansw. unfold Config.create_week_dir, bind. cbv zeta.
  destruct (mkdir_gracefully_existing _ w Hcw) as (w1 & -> & Hf1 & Ho1).
  rewrite <- Hf1 in Hsrc, Hansw.
  destruct (mkdir_gracefully_existing _ w1 Hsrc) as (w2 & -> & Hf2 & Ho2).
  rewrite <- Hf2 in Hansw.
  destruct (mkdir_gracefully_existing _ w2 Hansw) as (w3 & -> & Hf3 & Ho3).
  exists w3. split; [reflexivity|]. split; congruence.
Qed.

End StepsMore.

(** X5: [create_week_dir] overwrites nothing and can be repeated.  When it
    returns, every earlier entry of the file system is still there and a
    second call returns as well and changes nothing; on a week that already
    has its three directories it returns and changes nothing. *)
Theorem X5_create_week_dir_repeatable (week_path : Path) (w : World) :
  (forall w1, Config.create_week_dir week_path w = (OK tt, w1) ->
     grows (fs w) (fs w1) /\
     exists w2, Config.create_week_dir week_path w1 = (OK tt, w2) /\
                fs w2 = fs w1 /\ stdout w2 = stdout w1) /\
  (isdir (fs w) (joinpath week_path "classwork") = true ->
   isdir (fs w) (joinpath (joinpath week_path "homework") "src") = true ->
   isdir (fs w) (joinpath (joinpath week_path "homework") "answ") = true ->
   exists w', Config.create_week_dir week_path w = (OK tt, w') /\
              fs w' = fs w /\ stdout w' = stdout w).
Proof.
  split.
  - intros w1 Hrun.
    destruct (create_week_dir_sound _ _ _ _ Hrun) as (_ & Hg & Hdirs).
    destruct (Hdirs eq_refl) as (Hcw & Hsrc & Hansw).
    split; [assumption|]. now apply create_week_dir_existing.
  - apply create_week_dir_existing.
Qed.

Lemma X5_witness :
  let week_path := ["week1"; "a"] in
  let w1 := snd (Config.create_week_dir week_path Sample.with_file) in
  lookup (fs w1) ["todo.txt"; "a"] = Some File /\
  fs (snd (Config.create_week_dir week_path w1)) = fs w1.
Proof.
  intros week_path w1.
  destruct (proj1 (X5_create_week_dir_repeatable week_path Sample.with_file) w1)
    as (Hgrows & w2 & Hrun & Hfs & _).
  - vm_compute. reflexivity.
  - split.
    + apply (lookup_grows _ _ _ _ Hgrows). reflexivity.
    + now rewrite Hrun.
Defined.

(** X6: [get_course] with an explicit identifier never answers [None].
    When it returns, the course it selects is [course<id>] and that
    directory exists.  Whether it returns or raises, every earlier entry of
    the file system is still there and nothing is printed. *)
Theorem X6_explicit_course_is_materialized
        (path : Path) (args : Namespace) (w w' : World)
        (r : result (option string)) (course_id : string) :
  c args = Some course_id ->
  get_course path args w = (r, w') ->
  let course := Config.COURSE_IDENTIFICATION_TO_DIR course_id in
  grows (fs w) (fs w') /\ stdout w' = stdout w /\
  (forall selected, r = OK selected ->
     selected = Some course /\ isdir (fs w') (joinpath path course) = true).
Proof.
  intros Hc. rewrite (run_get_course_explicit _ _ course_id) by exact Hc.
  unfold mkdir_gracefully.
  destruct (mkdir_parents true _ w) as [[[]|e] w1] eqn:H1;
    destruct (mkdir_parents_sound _ _ _ _ _ H1) as (Ho & Hg & Hd);
    intros [= <- <-]; cbv zeta.
  - split; [assumption|]. split; [assumption|].
    intros selected [= <-]. auto.
  - split; [assumption|]. split; [assumption|].
    intros selected [=].
Qed.

Lemma X6_witness :
  let args := mkNamespace "a" "h" (Some "4") None in
  let base := "assembly" :: Sample.magshimim in
  let w' := snd (get_course base args Sample.lessons) in
  isdir (fs w') ("course4" :: base) = true /\
  grows (fs Sample.lessons) (fs w').
Proof.
  intros args base w'.
  destruct (X6_explicit_course_is_materialized
              base args Sample.lessons w' (fst (get_course base args Sample.lessons))
              "4" eq_refl)
    as (Hgrows & _ & Hok).
  - vm_compute. reflexivity.
  - split; [|exact Hgrows].
    apply (Hok (Some "course4")). vm_compute. reflexivity.
Defined.

(** ** Whole runs *)

Section RunsMore.

Lemma parse_args_frame (argv : CommandLine) (w w' : World) (r : result Namespace) :
  parse_args create_parser argv w = (r, w') ->
  w' = w /\
  match r with
  | OK args => exists dirname, getitem Config.COURSES (directory args) = OK dirname
  | Err e => exists message, e = SystemExit 2 message
  end.
Proof.
  destruct (parse_args_cases argv w) as [(msg & ->)|(d & m & -> & Hd & _ & _)];
    intros [= <- <-]; (split; [reflexivity|]).
  - now exists msg.
  - simpl. destruct Hd as [<-|[<-|[]]]; eexists; reflexivity.
Qed.


Lemma walk_not_KeyError (fs : FS) (p : Path) (e : exn) :
  walk fs p = Err e -> e <> KeyError.
Proof.
  revert e. induction p as [|name par IH]; intros e; simpl; [discriminate|].
  destruct (walk fs par) as [[d [|]]|e0].
  - intros [= <-]. discriminate.
  - destruct (String.eqb name ".."); [discriminate|].
    destruct (lookup fs (name :: d)); [discriminate|].
    intros [= <-]. discriminate.
  - intros [= <-]. now apply IH.
Qed.

Lemma Fs_mkdir_not_KeyError (fs : FS) (p : Path) (e : exn) :
  Fs.mkdir fs p = Err e -> e <> KeyError.
Proof.
  destruct p as [|name par]; simpl; [intros [= <-]; discriminate|].
  destruct (walk fs par) as [[d [|]]|e0] eqn:Hw.
  - intros [= <-]. discriminate.
  - destruct (String.eqb name ".."); [intros [= <-]; discriminate|].
    destruct (lookup fs (name :: d)); [intros [= <-]; discriminate | discriminate].
  - intros [= <-]. now apply walk_not_KeyError in Hw.
Qed.

Lemma except_OSError_raises (exist_ok : bool) (p : Path) (e e' : exn) (w w' : World) :
  except_OSError exist_ok p e w = (Err e', w') -> e' = e.
Proof.
  rewrite run_except_OSError.
  destruct exist_ok; [destruct (isdir (fs w) p)|]; congruence.
Qed.

Lemma mkdir_leaf_not_KeyError (exist_ok : bool) (p : Path) (w w' : World) (e : exn) :
  mkdir_leaf exist_ok p w = (Err e, w') -> e <> KeyError.
Proof.
  rewrite run_mkdir_leaf.
  destruct (Fs.mkdir (fs w) p) as [fs'|e0] eqn:Hmk; [discriminate|].
  pose proof (Fs_mkdir_not_KeyError _ _ _ Hmk) as Hne.
  destruct e0; try (intros H; apply except_OSError_raises in H; now subst).
  now intros [= <- <-].
Qed.

(** [mkdir_gracefully] does not raise [KeyError]. *)
Lemma mkdir_parents_not_KeyError (p : Path) :
  forall (exist_ok : bool) (w w' : World) (e : exn),
    mkdir_parents exist_ok p w = (Err e, w') -> e <> KeyError.
Proof.
  induction p as [|name par IH]; intros exist_ok w w' e; rewrite run_mkdir_parents.
  - simpl. intros H. apply except_OSError_raises in H. subst. discriminate.
  - destruct (Fs.mkdir (fs w) (name :: par)) as [fs'|e0] eqn:Hmk; [discriminate|].
    pose proof (Fs_mkdir_not_KeyError _ _ _ Hmk) as Hne.
    destruct e0; try (intros H; apply except_OSError_raises in H; now subst).
    destruct (mkdir_parents true par (logged w (SysMkdir (name :: par))))
      as [[[]|e1] w1] eqn:Hpar.
    + apply mkdir_leaf_not_KeyError.
    + intros [= <- <-]. now apply IH in Hpar.
Qed.

Lemma create_week_dir_not_KeyError (week_path : Path) (w w' : World) (e : exn) :
  Config.create_week_dir week_path w = (Err e, w') -> e <> KeyError.
Proof.
  unfold Config.create_week_dir, mkdir_gracefully, bind. cbv zeta.
  destruct (mkdir_parents true (joinpath week_path "classwork") w)
    as [[[]|e1] w1] eqn:H1.
  - destruct (mkdir_parents true (joinpath (joinpath week_path "homework") "src") w1)
      as [[[]|e2] w2] eqn:H2.
    + apply mkdir_parents_not_KeyError.
    + intros [= <- <-]. now apply mkdir_parents_not_KeyError in H2.
  - intros [= <- <-]. now apply mkdir_parents_not_KeyError in H1.
Qed.

(** A lookup does not raise [KeyError]. *)
Lemma lookup_not_KeyError (lvl : Level) (fs : FS) (dir : Path) (e : exn) :
  rbind (Fs.listdir fs dir) (latest_of lvl) = Err e -> e <> KeyError.
Proof.
  unfold Fs.listdir.
  destruct (walk fs dir) as [[d [|]]|e0] eqn:Hw; simpl.
  - intros [= <-]. discriminate.
  - intros H. destruct (latest_raises_only_on_malformed _ _ _ H) as (-> & _).
    discriminate.
  - intros [= <-]. now apply walk_not_KeyError in Hw.
Qed.

Lemma get_course_not_KeyError (path : Path) (args : Namespace) (w w' : World) (e : exn) :
  get_course path args w = (Err e, w') -> e <> KeyError.
Proof.
  unfold get_course. destruct (c args) as [course_id|].
  - unfold bind, mkdir_gracefully.
    destruct (mkdir_parents true _ w) as [[[]|e1] w1] eqn:H1; [discriminate|].
    intros [= <- <-]. now apply mkdir_parents_not_KeyError in H1.
  - rewrite run_get_latest_course. intros [= H _].
    now apply (lookup_not_KeyError Course) in H.
Qed.

Lemma get_week_not_KeyError (path : Path) (args : Namespace) (w w' : World) (e : exn) :
  get_week path args w = (Err e, w') -> e <> KeyError.
Proof.
  unfold get_week. destruct (argparse.w args) as [week_id|].
  - unfold bind.
    destruct (Config.create_week_dir _ w) as [[[]|e1] w1] eqn:H1; [discriminate|].
    intros [= <- <-]. now apply create_week_dir_not_KeyError in H1.
  - rewrite run_get_latest_week. intros [= H _].
    now apply (lookup_not_KeyError Week) in H.
Qed.

End RunsMore.


(** X8: the alias of a command line that the parser accepts is a key of
    [COURSES], because the choices of the parser are the keys of [COURSES];
    so the look-up [COURSES[args.directory]] of [main] finds a directory
    name, and no run of [main] ends with [KeyError]. *)
Theorem X8_alias_lookup_never_raises_KeyError
        (env : Env) (argv : CommandLine) (w : World) :
  (forall args w', parse_args create_parser argv w = (OK args, w') ->
     exists dirname, getitem Config.COURSES (directory args) = OK dirname) /\
  (forall e, fst (main env argv w) = Err e -> e <> KeyError).
Proof.
  split.
  - intros args w' Hp. now destruct (parse_args_frame _ _ _ _ Hp) as (_ & Hargs).
  - intros e. rewrite main_eq.
    destruct (parse_args create_parser argv w) as [[args|e0] w0] eqn:Hp;
      destruct (parse_args_frame _ _ _ _ Hp) as (-> & Hargs).
    2:{ simpl. intros [= <-]. destruct Hargs as (msg & ->). discriminate. }
    destruct Hargs as (dirname & ->). cbv zeta.
    destruct (mkdir_gracefully _ w) as [[[]|e1] w1] eqn:H1.
    2:{ simpl. intros [= <-]. now apply mkdir_parents_not_KeyError in H1. }
    destruct (get_course _ args w1) as [[[course|]|e2] w2] eqn:H2.
    3:{ simpl. intros [= <-]. now apply get_course_not_KeyError in H2. }
    2:{ simpl. intros [= <-]. discriminate. }
    destruct (get_week _ args w2) as [[[week|]|e3] w3] eqn:H3.
    3:{ simpl. intros [= <-]. now apply get_week_not_KeyError in H3. }
    2:{ simpl. intros [= <-]. discriminate. }
    destruct (String.eqb (hw args) "c"); [|destruct (String.eqb (hw args) "h")];
      discriminate.
Qed.

Lemma X8_witness :
  exists dirname,
    getitem Config.COURSES (directory (mkNamespace "p" "h" None (Some "3")))
    = OK dirname.
Proof.
  apply (proj1 (X8_alias_lookup_never_raises_KeyError
                  Sample.env (mkCommandLine ["p"] None (Some "3")) Sample.lessons)
               (mkNamespace "p" "h" None (Some "3")) Sample.lessons).
  reflexivity.
Defined.

Section Rerun.

(** The outcome of [parse_args] is the same in every world. *)
Lemma parse_args_any_world (argv : CommandLine) :
  exists r, forall w, parse_args create_parser argv w = (r, w).
Proof.
  unfold parse_args.
  destruct (positionals argv) as [|d [|m [|x extras]]].
  - eexists. intros w. reflexivity.
  - destruct (contains (directory_choices create_parser) d) eqn:Hd.
    + eexists. intros w. unfold bind. rewrite !run_check_value, Hd. reflexivity.
    + eexists. intros w. unfold bind. rewrite !run_check_value, Hd. reflexivity.
  - destruct (contains (directory_choices create_parser) d) eqn:Hd;
      [destruct (contains (hw_choices create_parser) m) eqn:Hm|];
      eexists; intros w; unfold bind; rewrite !run_check_value, Hd;
      rewrite ?run_check_value, ?Hm; reflexivity.
  - destruct (contains (directory_choices create_parser) d) eqn:Hd;
      [destruct (contains (hw_choices create_parser) m) eqn:Hm|];
      eexists; intros w; unfold bind; rewrite !run_check_value, Hd;
      rewrite ?run_check_value, ?Hm; reflexivity.
Qed.

(** The lookups depend on the file system only. *)
Lemma get_latest_course_same_fs (dir : Path) (w w' : World) :
  fs w' = fs w ->
  fst (get_latest_course dir w') = fst (get_latest_course dir w) /\
  fs (snd (get_latest_course dir w')) = fs w.
Proof. intros H. rewrite !run_get_latest_course, H. auto. Qed.

Lemma get_latest_week_same_fs (dir : Path) (w w' : World) :
  fs w' = fs w ->
  fst (get_latest_week dir w') = fst (get_latest_week dir w) /\
  fs (snd (get_latest_week dir w')) = fs w.
Proof. intros H. rewrite !run_get_latest_week, H. auto. Qed.

(** A step of the pipeline that returned returns the same answer, and
    changes nothing, in a later world whose file system has grown from the
    one the step left, provided the step was explicit or the file system is
    still the one the step saw. *)
Lemma get_course_again (path : Path) (args : Namespace) (w w1 v : World)
      (course : string) :
  get_course path args w = (OK (Some course), w1) ->
  grows (fs w1) (fs v) ->
  (c args = None -> fs v = fs w) ->
  exists v', get_course path args v = (OK (Some course), v') /\
             fs v' = fs v /\ stdout v' = stdout v.
Proof.
  intros Hrun Hg Hsame. unfold get_course in *.
  destruct (c args) as [course_id|].
  - unfold bind in *.
    destruct (mkdir_gracefully _ w) as [[[]|e] wa] eqn:H1; [|discriminate].
    injection Hrun as <- <-.
    destruct (mkdir_parents_sound _ _ _ _ _ H1) as (_ & _ & Hd).
    pose proof (isdir_grows _ _ _ Hg (Hd eq_refl)) as Hd'.
    destruct (mkdir_gracefully_existing _ v Hd') as (v' & -> & Hf & Ho).
    exists v'. auto.
  - specialize (Hsame eq_refl).
    rewrite run_get_latest_course in *. rewrite Hsame.
    injection Hrun as Hr _. rewrite Hr.
    eexists. split; [reflexivity|]. split; [simpl; congruence | reflexivity].
Qed.

Lemma get_week_again (path : Path) (args : Namespace) (w w1 v : World)
      (week : string) :
  get_week path args w = (OK (Some week), w1) ->
  grows (fs w1) (fs v) ->
  (argparse.w args = None -> fs v = fs w) ->
  exists v', get_week path args v = (OK (Some week), v') /\
             fs v' = fs v /\ stdout v' = stdout v.
Proof.
  intros Hrun Hg Hsame. unfold get_week in *.
  destruct (argparse.w args) as [week_id|].
  - unfold bind in *.
    destruct (Config.create_week_dir _ w) as [[[]|e] wa] eqn:H1; [|discriminate].
    injection Hrun as <- <-.
    destruct (create_week_dir_sound _ _ _ _ H1) as (_ & _ & Hd).
    destruct (Hd eq_refl) as (Hcw & Hsrc & Hansw).
    destruct (create_week_dir_existing _ v
                (isdir_grows _ _ _ Hg Hcw) (isdir_grows _ _ _ Hg Hsrc)
                (isdir_grows _ _ _ Hg Hansw)) as (v' & -> & Hf & Ho).
    exists v'. auto.
  - specialize (Hsame eq_refl).
    rewrite run_get_latest_week in *. rewrite Hsame.
    injection Hrun as Hr _. rewrite Hr.
    eexists. split; [reflexivity|]. split; [simpl; congruence | reflexivity].
Qed.

End Rerun.

(** X9: running a command again.  When a run has returned and the command
    names the course or does not name the week, the same command run again
    on the file system the first run left returns as well, creates nothing
    and prints the same line. *)
Theorem X9_second_run_changes_nothing
        (env : Env) (argv : CommandLine) (w w1 : World) :
  opt_c argv <> None \/ opt_w argv = None ->
  main env argv w = (OK tt, w1) ->
  exists w2 line,
    main env argv w1 = (OK tt, w2) /\
    fs w2 = fs w1 /\
    stdout w1 = stdout w ++ [line] /\
    stdout w2 = stdout w1 ++ [line].
Proof.
  intros Hids. rewrite !main_eq.
  destruct (parse_args_any_world argv) as (rp & Hparse). rewrite !Hparse.
  destruct rp as [args|e]; [|discriminate].
  assert (Hc : c args = opt_c argv /\ argparse.w args = opt_w argv).
  { destruct (parse_args_cases argv w) as [(msg & Hp)|(d & m & Hp & _)];
      rewrite Hparse in Hp; [discriminate|]. injection Hp as ->. auto. }
  destruct Hc as (Hc & Hw).
  destruct (getitem Config.COURSES (directory args)) as [dirname|e]; [|discriminate].
  cbv zeta.
  set (base_path := joinpath (Config.MAGSHIMIM_DIR_PATH env) dirname).
  destruct (mkdir_gracefully base_path w) as [[[]|e] wa] eqn:H1; [|discriminate].
  destruct (mkdir_parents_sound _ _ _ _ _ H1) as (Hoa & Hga & Hda).
  specialize (Hda eq_refl).
  destruct (get_course base_path args wa) as [[[course|]|e] wb] eqn:H2;
    try discriminate.
  destruct (get_course_sound _ _ _ _ _ H2) as (Hob & Hgb & Hfb).
  destruct (get_week (joinpath base_path course) args wb) as [[[week|]|e] wc] eqn:H3;
    try discriminate.
  destruct (get_week_sound _ _ _ _ _ H3) as (Hoc & Hgc & Hfc).
  set (week_path := joinpath (joinpath base_path course) week).
  set (line := if String.eqb (hw args) "c"
               then str (joinpath week_path "classwork")
               else if String.eqb (hw args) "h"
                    then str (joinpath (joinpath week_path "homework") "answ")
                    else str week_path).
  assert (Hbranch : forall v,
             (if String.eqb (hw args) "c"
              then (OK tt, printed v (str (joinpath week_path "classwork")))
              else if String.eqb (hw args) "h"
                   then (OK tt, printed v (str (joinpath (joinpath week_path "homework") "answ")))
                   else (OK tt, printed v (str week_path)))
             = (OK tt, printed v line)).
  { intros v. unfold line.
    destruct (String.eqb (hw args) "c"); [|destruct (String.eqb (hw args) "h")];
      reflexivity. }
  rewrite Hbranch. intros [= <-].
  (* the second run *)
  assert (Hbase : isdir (fs (printed wc line)) base_path = true).
  { simpl. eauto using isdir_grows, grows_trans. }
  destruct (mkdir_gracefully_existing _ _ Hbase) as (va & -> & Hfa & Hova).
  simpl in Hfa, Hova.
  assert (Hgrow_b : grows (fs wb) (fs va)) by (rewrite Hfa; assumption).
  assert (Hsame_b : c args = None -> fs va = fs wa).
  { intros Hnone. rewrite Hfa.
    assert (Hwnone : argparse.w args = None).
    { destruct Hids as [Hne|Hnone']; [rewrite <- Hc in Hne; congruence | congruence]. }
    rewrite (Hfc Hwnone). now apply Hfb. }
  destruct (get_course_again _ _ _ _ va _ H2 Hgrow_b Hsame_b) as (vb & -> & Hfvb & Hovb).
  assert (Hgrow_c : grows (fs wc) (fs vb))
    by (rewrite Hfvb, Hfa; apply grows_refl).
  assert (Hsame_c : argparse.w args = None -> fs vb = fs wb).
  { intros Hnone. rewrite Hfvb, Hfa. now apply Hfc. }
  destruct (get_week_again _ _ _ _ vb _ H3 Hgrow_c Hsame_c) as (vc & -> & Hfvc & Hovc).
  fold week_path. rewrite Hbranch.
  exists (printed vc line), line.
  split; [reflexivity|]. split; [simpl; congruence|].
  split; simpl; congruence.
Qed.

Lemma X9_witness :
  let argv := mkCommandLine ["p"] (Some "5") (Some "2") in
  let w1 := snd (main Sample.env argv Sample.fresh_home) in
  exists w2 line,
    main Sample.env argv w1 = (OK tt, w2) /\
    fs w2 = fs w1 /\
    stdout w1 = stdout Sample.fresh_home ++ [line] /\
    stdout w2 = stdout w1 ++ [line].
Proof.
  intros argv w1.
  apply (X9_second_run_changes_nothing Sample.env argv Sample.fresh_home w1).
  - left. discriminate.
  - vm_compute. reflexivity.
Defined.

Section Layout.

Lemma split_slash_no_slash (s : string) :
  Py.char_in "/" s = false -> split_slash s = [s].
Proof.
  induction s as [|a s IH]; [reflexivity|].
  cbn [Py.char_in split_slash]. rewrite (Ascii.eqb_sym "/" a).
  destruct (Ascii.eqb a "/"); [discriminate|].
  intros H. now rewrite (IH H).
Qed.

(** Joining a name without ["/"], other than [""] and ["."], adds one
    component. *)
Lemma joinpath_component (path : Path) (s : string) :
  Py.char_in "/" s = false -> s <> "" -> s <> "." ->
  joinpath path s = s :: path.
Proof.
  intros Hslash Hne Hdot. unfold joinpath, parse_parts.
  rewrite (split_slash_no_slash s Hslash).
  assert (Hstart : Py.startswith s "/" = false).
  { destruct s as [|a s]; [reflexivity|].
    cbn [Py.char_in] in Hslash. cbn [Py.startswith].
    destruct (Ascii.eqb "/" a); [discriminate | reflexivity]. }
  rewrite Hstart. simpl filter.
  apply String.eqb_neq in Hne. apply String.eqb_neq in Hdot.
  now rewrite Hne, Hdot.
Qed.

Lemma joinpath_course (path : Path) (course_id : string) :
  Py.char_in "/" course_id = false ->
  joinpath path (Config.COURSE_IDENTIFICATION_TO_DIR course_id)
  = Config.COURSE_IDENTIFICATION_TO_DIR course_id :: path.
Proof.
  intros H. apply joinpath_component; [exact H | cbv; discriminate | cbv; discriminate].
Qed.

Lemma joinpath_week (path : Path) (week_id : string) :
  Py.char_in "/" week_id = false ->
  joinpath path (Config.WEEK_IDENTIFICATION_TO_DIR week_id)
  = Config.WEEK_IDENTIFICATION_TO_DIR week_id :: path.
Proof.
  intros H. apply joinpath_component; [exact H | cbv; discriminate | cbv; discriminate].
Qed.

End Layout.

(** X10: the layout of the result.  With identifiers that hold no ["/"], a
    run with [-c] and [-w] that returns prints the path
    [<home>/Magshimim/<dirname>/course<c>/week<w>/classwork] in mode ["c"]
    and [.../week<w>/homework/answ] in mode ["h"], where [<dirname>] is the
    entry of [COURSES] for the alias; the printed path is a directory when
    the run ends. *)
Theorem X10_printed_path_layout
        (env : Env) (argv : CommandLine) (w w' : World) (course_id week_id : string) :
  opt_c argv = Some course_id ->
  opt_w argv = Some week_id ->
  Py.char_in "/" course_id = false ->
  Py.char_in "/" week_id = false ->
  main env argv w = (OK tt, w') ->
  exists alias rest dirname leaf,
    positionals argv = alias :: rest /\
    getitem Config.COURSES alias = OK dirname /\
    ((rest = ["c"] /\ leaf = ["classwork"]) \/
     ((rest = [] \/ rest = ["h"]) /\ leaf = ["answ"; "homework"])) /\
    let path := leaf ++ ("week" ++ week_id)%string :: ("course" ++ course_id)%string
                     :: dirname :: "Magshimim" :: home env in
    stdout w' = stdout w ++ [str path] /\
    isdir (fs w') path = true.
Proof.
  intros Hc Hw Hcs Hws. rewrite main_eq.
  destruct (parse_args_cases argv w) as [(msg & ->)|(d & m & -> & Hd & Hm & Hpos)];
    [discriminate|].
  simpl directory. simpl hw.
  destruct (category_root env d Hd) as (dirname & Hget & _ & Hbase).
  rewrite Hget. cbv zeta. rewrite Hbase.
  set (base_path := dirname :: "Magshimim" :: home env).
  destruct (mkdir_gracefully base_path w) as [[[]|e] w1] eqn:H1; [|discriminate].
  destruct (mkdir_parents_sound _ _ _ _ _ H1) as (Ho1 & _ & _).
  rewrite (run_get_course_explicit _ _ course_id) by exact Hc.
  rewrite (joinpath_course _ _ Hcs).
  destruct (mkdir_gracefully _ w1) as [[[]|e] w2] eqn:H2; [|discriminate].
  destruct (mkdir_parents_sound _ _ _ _ _ H2) as (Ho2 & _ & _).
  rewrite (joinpath_course _ _ Hcs).
  rewrite (run_get_week_explicit _ _ week_id) by exact Hw.
  rewrite (joinpath_week _ _ Hws).
  destruct (Config.create_week_dir _ w2) as [[[]|e] w3] eqn:H3; [|discriminate].
  destruct (create_week_dir_sound _ _ _ _ H3) as (Ho3 & _ & Hdirs).
  destruct (Hdirs eq_refl) as (Hcw & _ & Hansw).
  rewrite (joinpath_week _ _ Hws).
  assert (Hout : stdout w3 = stdout w) by congruence.
  assert (Hmode : m = "c" \/ m = "h") by (simpl in Hm; intuition).
  destruct Hmode as [-> | ->]; simpl; intros [= <-].
  - exists d, ["c"], dirname, ["classwork"].
    split; [destruct Hpos as [Hp|(Hp & Hm')]; [exact Hp | discriminate]|].
    split; [assumption|]. split; [left; auto|].
    cbv zeta. simpl. rewrite Hout. split; [reflexivity | exact Hcw].
  - exists d, (match positionals argv with _ :: rest => rest | [] => [] end),
           dirname, ["answ"; "homework"].
    split; [destruct Hpos as [->|(-> & _)]; reflexivity|].
    split; [assumption|].
    split; [right; split; [destruct Hpos as [->|(-> & _)]; auto | reflexivity]|].
    cbv zeta. simpl. rewrite Hout. split; [reflexivity | exact Hansw].
Qed.

Lemma X10_witness :
  exists alias rest dirname leaf,
    positionals (mkCommandLine ["a"; "c"] (Some "12") (Some "3")) = alias :: rest /\
    getitem Config.COURSES alias = OK dirname /\
    ((rest = ["c"] /\ leaf = ["classwork"]) \/
     ((rest = [] \/ rest = ["h"]) /\ leaf = ["answ"; "homework"])) /\
    let w' := snd (main Sample.env (mkCommandLine ["a"; "c"] (Some "12") (Some "3"))
                        Sample.lessons) in
    let path := leaf ++ "week3" :: "course12" :: dirname :: "Magshimim"
                     :: home Sample.env in
    stdout w' = stdout Sample.lessons ++ [str path] /\
    isdir (fs w') path = true.
Proof.
  apply (X10_printed_path_layout
           Sample.env (mkCommandLine ["a"; "c"] (Some "12") (Some "3"))
           Sample.lessons _ "12" "3" eq_refl eq_refl eq_refl eq_refl).
  vm_compute. reflexivity.
Defined.

Section Traces.

Lemma no_listing_refl (w : World) : no_listing w w.
Proof. exists []. split; [now rewrite app_nil_r | constructor]. Qed.

Lemma no_listing_trans (a b c : World) :
  no_listing a b -> no_listing b c -> no_listing a c.
Proof.
  intros (x & Hx & Fx) (y & Hy & Fy). exists (x ++ y).
  split; [now rewrite Hy, Hx, app_assoc | now apply Forall_app].
Qed.

Lemma no_listing_step (w w' : World) (s : Syscall) :
  is_listdir s = false -> syscalls w' = syscalls w ++ [s] -> no_listing w w'.
Proof. intros Hs Hw. exists [s]. split; [assumption | now repeat constructor]. Qed.

Lemma except_OSError_no_listing (exist_ok : bool) (p : Path) (e : exn)
      (w w' : World) (r : result unit) :
  except_OSError exist_ok p e w = (r, w') -> no_listing w w'.
Proof.
  rewrite run_except_OSError.
  destruct exist_ok; [destruct (isdir (fs w) p)|]; intros [= <- <-];
    try apply no_listing_refl; now apply no_listing_step with (SysStat p).
Qed.

Lemma mkdir_leaf_no_listing (exist_ok : bool) (p : Path) (w w' : World)
      (r : result unit) :
  mkdir_leaf exist_ok p w = (r, w') -> no_listing w w'.
Proof.
  rewrite run_mkdir_leaf.
  assert (Hlog : no_listing w (logged w (SysMkdir p)))
    by now apply no_listing_step with (SysMkdir p).
  destruct (Fs.mkdir (fs w) p) as [fs'|e].
  - intros [= <- <-]. now apply no_listing_step with (SysMkdir p).
  - destruct e;
      try (intros H; apply except_OSError_no_listing in H;
           now apply no_listing_trans with (logged w (SysMkdir p))).
    now intros [= <- <-].
Qed.

(** [mkdir_gracefully] never reads a directory. *)
Lemma mkdir_parents_no_listing (p : Path) :
  forall (exist_ok : bool) (w w' : World) (r : result unit),
    mkdir_parents exist_ok p w = (r, w') -> no_listing w w'.
Proof.
  induction p as [|name par IH]; intros exist_ok w w' r; rewrite run_mkdir_parents.
  - simpl. intros H. apply except_OSError_no_listing in H.
    apply no_listing_trans with (logged w (SysMkdir [])); [|assumption].
    now apply no_listing_step with (SysMkdir []).
  - assert (Hlog : no_listing w (logged w (SysMkdir (name :: par))))
      by now apply no_listing_step with (SysMkdir (name :: par)).
    destruct (Fs.mkdir (fs w) (name :: par)) as [fs'|e].
    + intros [= <- <-]. now apply no_listing_step with (SysMkdir (name :: par)).
    + destruct e;
        try (intros H; apply except_OSError_no_listing in H;
             now apply no_listing_trans with (logged w (SysMkdir (name :: par)))).
      destruct (mkdir_parents true par (logged w (SysMkdir (name :: par))))
        as [[[]|e1] w1] eqn:Hpar; apply IH in Hpar.
      * intros H. apply mkdir_leaf_no_listing in H.
        eauto using no_listing_trans.
      * intros [= <- <-]. eauto using no_listing_trans.
Qed.

Lemma create_week_dir_no_listing (week_path : Path) (w w' : World) (r : result unit) :
  Config.create_week_dir week_path w = (r, w') -> no_listing w w'.
Proof.
  unfold Config.create_week_dir, mkdir_gracefully, bind. cbv zeta.
  destruct (mkdir_parents true (joinpath week_path "classwork") w)
    as [[[]|e1] w1] eqn:H1; apply mkdir_parents_no_listing in H1;
    [|now intros [= <- <-]].
  destruct (mkdir_parents true (joinpath (joinpath week_path "homework") "src") w1)
    as [[[]|e2] w2] eqn:H2; apply mkdir_parents_no_listing in H2;
    [|intros [= <- <-]; eauto using no_listing_trans].
  intros H3. apply mkdir_parents_no_listing in H3.
  eauto using no_listing_trans.
Qed.

End Traces.

(** X11: with both identifiers on the command line no directory is ever
    read: none of the system calls of the run is a [listdir]. *)
Theorem X11_explicit_identifiers_read_no_directory
        (env : Env) (argv : CommandLine) (w : World) (course_id week_id : string) :
  opt_c argv = Some course_id ->
  opt_w argv = Some week_id ->
  no_listing w (snd (main env argv w)).
Proof.
  intros Hc Hw. rewrite main_eq.
  destruct (parse_args_cases argv w) as [(msg & ->)|(d & m & -> & Hd & Hm & _)];
    [apply no_listing_refl|].
  simpl directory. simpl hw.
  destruct (category_root env d Hd) as (dirname & -> & _ & ->). cbv zeta.
  destruct (mkdir_gracefully _ w) as [[[]|e] w1] eqn:H1;
    apply mkdir_parents_no_listing in H1; [|exact H1].
  rewrite (run_get_course_explicit _ _ course_id) by exact Hc.
  destruct (mkdir_gracefully _ w1) as [[[]|e] w2] eqn:H2;
    apply mkdir_parents_no_listing in H2;
    [|simpl; eauto using no_listing_trans].
  rewrite (run_get_week_explicit _ _ week_id) by exact Hw.
  destruct (Config.create_week_dir _ w2) as [[[]|e] w3] eqn:H3;
    apply create_week_dir_no_listing in H3;
    [|simpl; eauto using no_listing_trans].
  assert (H03 : no_listing w w3) by eauto using no_listing_trans.
  destruct (String.eqb m "c"); [|destruct (String.eqb m "h")]; exact H03.
Qed.

Lemma X11_witness :
  no_listing Sample.file_as_course
             (snd (main Sample.env (mkCommandLine ["a"] (Some "4") (Some "1"))
                        Sample.file_as_course)).
Proof.
  apply (X11_explicit_identifiers_read_no_directory
           Sample.env (mkCommandLine ["a"] (Some "4") (Some "1"))
           Sample.file_as_course "4" "1" eq_refl eq_refl).
Defined.

(** X12: the lookup goes by names alone.  When no identifier is given and
    the name the lookup selects in the category root is that of a regular
    file, the run ends with [NotADirectoryError], raised by the listing of
    that file; nothing is printed and nothing is created. *)
Theorem X12_regular_file_taken_for_a_course
        (env : Env) (argv : CommandLine) (w : World) (args : Namespace)
        (dirname course : string) (names : list string) (l : Loc) :
  parse_args create_parser argv w = (OK args, w) ->
  c args = None ->
  argparse.w args = None ->
  getitem Config.COURSES (directory args) = OK dirname ->
  let base_path := joinpath (Config.MAGSHIMIM_DIR_PATH env) dirname in
  isdir (fs w) base_path = true ->
  Fs.listdir (fs w) base_path = OK names ->
  latest_course_of names = OK (Some course) ->
  walk (fs w) (joinpath base_path course) = OK (l, File) ->
  exists w', main env argv w = (Err NotADirectoryError, w') /\
             fs w' = fs w /\ stdout w' = stdout w.
Proof.
  intros Hparse Hc Hw Hget base_path Hbase Hls Hlatest Hfile.
  rewrite main_eq, Hparse, Hget. cbv zeta. fold base_path.
  destruct (mkdir_gracefully_existing _ w Hbase) as (w1 & -> & Hf1 & Ho1).
  unfold get_course. rewrite Hc, run_get_latest_course, Hf1, Hls. simpl rbind.
  rewrite Hlatest.
  unfold get_week. rewrite Hw, run_get_latest_week. simpl fs. rewrite Hf1.
  unfold Fs.listdir. rewrite Hfile. simpl.
  eexists. split; [reflexivity|]. simpl. auto.
Qed.

Lemma X12_witness :
  exists w',
    main Sample.env (mkCommandLine ["a"] None None) Sample.file_as_course
    = (Err NotADirectoryError, w') /\
    fs w' = fs Sample.file_as_course /\ stdout w' = stdout Sample.file_as_course.
Proof.
  apply (X12_regular_file_taken_for_a_course
           Sample.env (mkCommandLine ["a"] None None) Sample.file_as_course
           (mkNamespace "a" "h" None None) "assembly" "course9"
           ["course3"; "course9"] ("course9" :: "assembly" :: Sample.magshimim));
    reflexivity.
Defined.

(** X13: the pure lookup run.  Without identifiers, when the category root
    exists, its listing yields the course [course] and the listing of that
    course yields the week [week], the run returns, prints
    [<category root>/<course>/<week>/classwork] in mode ["c"] and
    [.../homework/answ] otherwise, and leaves the file system as it found
    it; whether the printed directory exists is not looked at. *)
Theorem X13_lookup_run_prints_latest
        (env : Env) (argv : CommandLine) (w : World) (args : Namespace)
        (dirname course week : string) (courses weeks : list string) :
  parse_args create_parser argv w = (OK args, w) ->
  c args = None ->
  argparse.w args = None ->
  getitem Config.COURSES (directory args) = OK dirname ->
  let base_path := joinpath (Config.MAGSHIMIM_DIR_PATH env) dirname in
  let week_path := joinpath (joinpath base_path course) week in
  isdir (fs w) base_path = true ->
  Fs.listdir (fs w) base_path = OK courses ->
  latest_course_of courses = OK (Some course) ->
  Fs.listdir (fs w) (joinpath base_path course) = OK weeks ->
  latest_week_of weeks = OK (Some week) ->
  exists w',
    main env argv w = (OK tt, w') /\
    fs w' = fs w /\
    stdout w' = stdout w ++
                [str (if String.eqb (hw args) "c" then "classwork" :: week_path
                      else "answ" :: "homework" :: week_path)].
Proof.
  intros Hparse Hc Hw Hget base_path week_path Hbase Hls Hcourse Hls' Hweek.
  rewrite main_eq, Hparse, Hget. cbv zeta. fold base_path.
  destruct (mkdir_gracefully_existing _ w Hbase) as (w1 & -> & Hf1 & Ho1).
  unfold get_course. rewrite Hc, run_get_latest_course, Hf1, Hls. simpl rbind.
  rewrite Hcourse.
  unfold get_week. rewrite Hw, run_get_latest_week. simpl fs. rewrite Hf1, Hls'.
  simpl rbind. rewrite Hweek. fold week_path.
  destruct (parse_args_cases argv w) as [(msg & Hp)|(d & m & Hp & _ & Hm & _)];
    rewrite Hparse in Hp; [discriminate|]. injection Hp as ->. simpl hw.
  assert (Hmode : m = "c" \/ m = "h") by (simpl in Hm; intuition).
  destruct Hmode as [-> | ->]; simpl String.eqb; cbv iota;
    (eexists; split; [reflexivity|]; simpl; split; [assumption|]; now rewrite Ho1).
Qed.

Lemma X13_witness :
  exists w',
    main Sample.env (mkCommandLine ["a"] None None) Sample.lessons = (OK tt, w') /\
    fs w' = fs Sample.lessons /\
    stdout w' = stdout Sample.lessons ++
                ["/home/user/Magshimim/assembly/course3/week7/homework/answ"] /\
    isdir (fs w') ("answ" :: "homework" :: "week7" :: "course3" :: "assembly"
                     :: Sample.magshimim) = false.
Proof.
  destruct (X13_lookup_run_prints_latest
              Sample.env (mkCommandLine ["a"] None None) Sample.lessons
              (mkNamespace "a" "h" None None) "assembly" "course3" "week7"
              ["course3"] ["week1"; "week7"]
              eq_refl eq_refl eq_refl eq_refl eq_refl eq_refl eq_refl eq_refl eq_refl)
    as (w' & Hrun & Hfs & Hout).
  exists w'. split; [exact Hrun|]. split; [exact Hfs|]. split; [exact Hout|].
  rewrite Hfs. reflexivity.
Defined.

(** X14: a week made in the latest course.  With [-w] but without [-c],
    when the category root exists and its listing yields the course
    [course], a run that returns has made the week directory with its
    [classwork], [homework/src] and [homework/answ] inside that course. *)
Theorem X14_explicit_week_in_latest_course
        (env : Env) (argv : CommandLine) (w w' : World) (args : Namespace)
        (dirname course week_id : string) (courses : list string) :
  parse_args create_parser argv w = (OK args, w) ->
  c args = None ->
  argparse.w args = Some week_id ->
  getitem Config.COURSES (directory args) = OK dirname ->
  let base_path := joinpath (Config.MAGSHIMIM_DIR_PATH env) dirname in
  let week_path := joinpath (joinpath base_path course)
                            (Config.WEEK_IDENTIFICATION_TO_DIR week_id) in
  isdir (fs w) base_path = true ->
  Fs.listdir (fs w) base_path = OK courses ->
  latest_course_of courses = OK (Some course) ->
  main env argv w = (OK tt, w') ->
  isdir (fs w') ("classwork" :: week_path) = true /\
  isdir (fs w') ("src" :: "homework" :: week_path) = true /\
  isdir (fs w') ("answ" :: "homework" :: week_path) = true /\
  stdout w' = stdout w ++
              [str (if String.eqb (hw args) "c" then "classwork" :: week_path
                    else "answ" :: "homework" :: week_path)].
Proof.
  intros Hparse Hc Hw Hget base_path week_path Hbase Hls Hcourse.
  rewrite main_eq, Hparse, Hget. cbv zeta. fold base_path.
  destruct (mkdir_gracefully_existing _ w Hbase) as (w1 & -> & Hf1 & Ho1).
  unfold get_course. rewrite Hc, run_get_latest_course, Hf1, Hls. simpl rbind.
  rewrite Hcourse.
  rewrite (run_get_week_explicit _ _ week_id) by exact Hw. fold week_path.
  destruct (Config.create_week_dir week_path _) as [[[]|e] w3] eqn:H3; [|discriminate].
  destruct (create_week_dir_sound _ _ _ _ H3) as (Ho3 & _ & Hdirs).
  destruct (Hdirs eq_refl) as (Hcw & Hsrc & Hansw).
  simpl in Ho3.
  destruct (parse_args_cases argv w) as [(msg & Hp)|(d & m & Hp & _ & Hm & _)];
    rewrite Hparse in Hp; [discriminate|]. injection Hp as ->. simpl hw.
  assert (Hmode : m = "c" \/ m = "h") by (simpl in Hm; intuition).
  assert (Hout : stdout w3 = stdout w) by congruence.
  destruct Hmode as [-> | ->]; simpl String.eqb; cbv iota;
    intros [= <-]; simpl; rewrite Hout;
    (split; [exact Hcw|]; split; [exact Hsrc|]; split; [exact Hansw|]; reflexivity).
Qed.

Lemma X14_witness :
  let w' := snd (main Sample.env (mkCommandLine ["a"; "c"] None (Some "8"))
                      Sample.lessons) in
  let week8 := "week8" :: "course3" :: "assembly" :: Sample.magshimim in
  isdir (fs w') ("classwork" :: week8) = true /\
  isdir (fs w') ("src" :: "homework" :: week8) = true /\
  isdir (fs w') ("answ" :: "homework" :: week8) = true /\
  stdout w' = stdout Sample.lessons ++ [str ("classwork" :: week8)].
Proof.
  intros w' week8.
  apply (X14_explicit_week_in_latest_course
           Sample.env (mkCommandLine ["a"; "c"] None (Some "8")) Sample.lessons w'
           (mkNamespace "a" "c" None (Some "8")) "assembly" "course3" "8" ["course3"]
           eq_refl eq_refl eq_refl eq_refl eq_refl eq_refl eq_refl).
  vm_compute. reflexivity.
Defined.
